(** * sao-parks: the map filter state, the interaction modes, the facility
    form, the admin page's delete handlers and the session gate.

    A shallow embedding of the client-side logic of [Map.svelte],
    [FacilityForm.svelte], [routes/+page.svelte] and of
    [lib/server/auth.ts].  Reactive [$state] variables become record
    fields that are passed explicitly; a [SvelteSet] becomes a [gset];
    arrays become lists; a JavaScript value that may be [null] becomes an
    [option]; JavaScript truthiness is written out where the source
    branches on it; what the browser, the server and the libraries decide
    (answers to [confirm] and [fetch], Leaflet's events, turf's geometry
    tests, the tables of [$lib/constants]) is an argument of the function
    that depends on it. *)

From Stdlib Require Import ZArith List Bool Ascii String Lia.
From stdpp Require Import base decidable option list gmap sets strings pretty.

(** A lemma of a section depends on the section variables of its
    statement only. *)
Set Default Proof Using "Type".

(** ** JavaScript truthiness *)

(** [if (x)] on a [number | null]: [null] and [0] are falsy. *)
Definition truthy_num (x : option Z) : bool :=
  match x with
  | Some n => negb (n =? 0)%Z
  | None => false
  end.

(** [if (s)] on a string: only the empty string is falsy. *)
Definition truthy_str (s : string) : bool :=
  match s with
  | EmptyString => false
  | String _ _ => true
  end.

(** [if (s)] on a [string | null | undefined]. *)
Definition truthy_ostr (s : option string) : bool :=
  match s with
  | Some s => truthy_str s
  | None => false
  end.

(** [set.has(x)] *)
Definition has `{Countable A} (s : gset A) (x : A) : bool := bool_decide (x ∈ s).

(** [set.has(x)] where [x] is a [number | null]: a set of numbers never
    holds [null]. *)
Definition has_num (s : gset Z) (x : option Z) : bool :=
  match x with
  | Some n => has s n
  | None => false
  end.

(** ** Entities (the [District], [Park] and [Facility] types)

    [number] stands for the JavaScript floating-point numbers of
    coordinates and areas; the modelled code only passes them around.
    Ids are the integers of the [serial] keys. *)

Section Entities.
Variable number : Type.

Record Geometry := mkGeometry {
  gtype : string;
  coordinates : list (list (list number))
}.

Record District := mkDistrict {
  d_id : Z;
  d_name : string;
  d_geometry : option Geometry
}.

(** [districtId: number | null].  The [geometry] column of the table is
    nullable, the park form submits [null] when its geometry text is
    edited to [null], and the renderer guards on it: [p_geometry] is
    [None] for such a park. *)
Record Park := mkPark {
  p_id : Z;
  p_name : string;
  districtId : option Z;
  p_geometry : option Geometry;
  p_area : option number;
  balanceHolder : option string;
  p_description : option string
}.

(** [park_id] is a nullable column: [parkId] is [None] for JSON [null]. *)
Record Facility := mkFacility {
  f_id : Z;
  f_name : string;
  f_type : string;
  latitude : number;
  longitude : number;
  parkId : option Z;
  photo : option string;
  f_description : option string;
  contractAction : option string;
  contractWith : option string;
  contractTerm : option string
}.

(** The three entity lists: [$state] of the page, bound to the props of
    the map component ([bind:parks], [bind:facilities], [bind:districts]). *)
Record Store := mkStore {
  districts : list District;
  parks : list Park;
  facilities : list Facility
}.
End Entities.

Arguments mkGeometry {number}.
Arguments gtype {number}.
Arguments coordinates {number}.
Arguments mkDistrict {number}.
Arguments d_id {number}.
Arguments d_name {number}.
Arguments d_geometry {number}.
Arguments mkPark {number}.
Arguments p_id {number}.
Arguments p_name {number}.
Arguments districtId {number}.
Arguments p_geometry {number}.
Arguments p_area {number}.
Arguments balanceHolder {number}.
Arguments p_description {number}.
Arguments mkFacility {number}.
Arguments f_id {number}.
Arguments f_name {number}.
Arguments f_type {number}.
Arguments latitude {number}.
Arguments longitude {number}.
Arguments parkId {number}.
Arguments photo {number}.
Arguments f_description {number}.
Arguments contractAction {number}.
Arguments contractWith {number}.
Arguments contractTerm {number}.
Arguments mkStore {number}.
Arguments districts {number}.
Arguments parks {number}.
Arguments facilities {number}.

(** ** Map.svelte: filter state *)

Module Map.
Section Component.
Variable number : Type.
(** [Object.keys(FACILITY_TYPES)], from [$lib/constants]. *)
Variable FACILITY_TYPE_KEYS : list string.

Local Abbreviation Park := (Park number).
Local Abbreviation District := (District number).
Local Abbreviation Facility := (Facility number).
Local Abbreviation Store := (Store number).

Record Filters := mkFilters {
  selectedDistricts : gset Z;
  selectedParks : gset Z;
  selectedFacilityTypes : gset string;
  filtersInitialized : bool
}.

(** The state the component starts with: three empty sets. *)
Definition initialFilters : Filters :=
  mkFilters ∅ ∅ ∅ false.

Definition set_selectedDistricts (s : gset Z) (f : Filters) : Filters :=
  mkFilters s (selectedParks f) (selectedFacilityTypes f) (filtersInitialized f).
Definition set_selectedParks (s : gset Z) (f : Filters) : Filters :=
  mkFilters (selectedDistricts f) s (selectedFacilityTypes f) (filtersInitialized f).
Definition set_selectedFacilityTypes (s : gset string) (f : Filters) : Filters :=
  mkFilters (selectedDistricts f) (selectedParks f) s (filtersInitialized f).

(** [xs.forEach((x) => { if (!set.has(x)) set.add(x) })] *)
Definition addMissing `{Countable A} (xs : list A) (s : gset A) : gset A :=
  fold_left (fun acc x => if has acc x then acc else acc ∪ {[x]}) xs s.

(** The [$effect] that initialises the filters and keeps new items
    selected. *)
Definition filtersEffect (st : Store) (f : Filters) : Filters :=
  if negb (filtersInitialized f) then
      mkFilters (list_to_set (map d_id (districts st)))
                (list_to_set (map p_id (parks st)))
                (list_to_set FACILITY_TYPE_KEYS)
                true
  else
      mkFilters (addMissing (map d_id (districts st)) (selectedDistricts f))
                (addMissing (map p_id (parks st)) (selectedParks f))
                (addMissing FACILITY_TYPE_KEYS (selectedFacilityTypes f))
                (filtersInitialized f).

(** [!park.districtId || selectedDistricts.has(park.districtId)] *)
Definition inSelectedDistrict (sel : gset Z) (park : Park) : bool :=
  negb (truthy_num (districtId park)) || has_num sel (districtId park).

(** [park.districtId && !selectedDistricts.has(park.districtId)] *)
Definition inDeselectedDistrict (sel : gset Z) (park : Park) : bool :=
  truthy_num (districtId park) && negb (has_num sel (districtId park)).

Definition filteredParks (st : Store) (f : Filters) : list Park :=
  List.filter (inSelectedDistrict (selectedDistricts f)) (parks st).

Definition toggle `{Countable A} (s : gset A) (x : A) : gset A :=
  if has s x then s ∖ {[x]} else s ∪ {[x]}.

Definition toggleDistrict (id : Z) (f : Filters) : Filters :=
  set_selectedDistricts (toggle (selectedDistricts f) id) f.

Definition togglePark (id : Z) (f : Filters) : Filters :=
  set_selectedParks (toggle (selectedParks f) id) f.

Definition toggleFacilityType (type : string) (f : Filters) : Filters :=
  set_selectedFacilityTypes (toggle (selectedFacilityTypes f) type) f.

Definition selectAllDistricts (st : Store) (f : Filters) : Filters :=
  set_selectedDistricts (list_to_set (map d_id (districts st))) f.

Definition deselectAllDistricts (f : Filters) : Filters :=
  set_selectedDistricts ∅ f.

Definition selectAllParks (st : Store) (f : Filters) : Filters :=
  let parksToSelect := List.filter (inSelectedDistrict (selectedDistricts f)) (parks st) in
  set_selectedParks (list_to_set (map p_id parksToSelect)) f.

Definition deselectAllParks (st : Store) (f : Filters) : Filters :=
  let parksToKeep := List.filter (inDeselectedDistrict (selectedDistricts f)) (parks st) in
  set_selectedParks (list_to_set (map p_id parksToKeep)) f.

Definition selectAllFacilityTypes (f : Filters) : Filters :=
  set_selectedFacilityTypes (list_to_set FACILITY_TYPE_KEYS) f.

Definition deselectAllFacilityTypes (f : Filters) : Filters :=
  set_selectedFacilityTypes ∅ f.


(** ** Map.svelte: the render passes

    A Leaflet layer is modelled by what the source gives it: the entity it
    is built from and the popup bound to it, if any.  A popup is the list
    of the parts of its HTML template, in order. *)

(** [FACILITY_TYPES[type]] and [FACILITY_ICONS[type]], from
    [$lib/constants]. *)
Variable FACILITY_TYPES : string -> option string.
Variable FACILITY_ICONS : string -> option string.
(** [new Date(s).toLocaleDateString('ru-RU')] *)
Variable toLocaleDateString : string -> string.
(** Truthiness of a JavaScript number ([0] and [NaN] are falsy). *)
Variable truthy_number : number -> bool.

Inductive Label :=
| TypeLabel | ParkLabel | DistrictLabel | DescriptionLabel | AreaLabel
| BalanceHolderLabel | SpecializationLabel | ContractWithLabel
| ContractTermLabel | FacilitiesLabel | ParksLabel.

Inductive PopupPart :=
| Image (src : string)
| Heading (text : string)
| Position (lat lng : number)
| Field (label : Label) (value : string)
| AreaField (area : number)
| Items (items : list string)
| CountItems (items : list (option string * nat))
| NoParks
| AdminButtons (id : Z)
| CloseButton.

Definition Popup := list PopupPart.

Record DistrictLayer := mkDistrictLayer {
  dl_district : District;
  dl_popup : option Popup
}.

Record ParkLayer := mkParkLayer {
  pl_park : Park;
  pl_popup : option Popup
}.

Record Marker := mkMarker {
  m_facility : Facility;
  m_icon : string;
  m_popup : option Popup
}.

(** [cond ? [part] : ''] inside a template. *)
Definition part_if (cond : bool) (part : PopupPart) : list PopupPart :=
  if cond then [part] else [].

(** [opt ? `...${opt}...` : ''] for an optional string. *)
Definition field_if (label : Label) (value : option string) : list PopupPart :=
  match value with
  | Some v => part_if (truthy_str v) (Field label v)
  | None => []
  end.

Definition districtPopup (st : Store) (isAdmin : bool) (district : District) : Popup :=
  let parksInDistrict :=
    List.filter (fun p => bool_decide (districtId p = Some (d_id district))) (parks st) in
  let parkCount := length parksInDistrict in
  [Heading (d_name district); Field ParksLabel (pretty parkCount)]
  ++ (if (0 <? parkCount)%nat then [Items (map p_name parksInDistrict)] else [NoParks])
  ++ part_if isAdmin (AdminButtons (d_id district))
  ++ [CloseButton].

Definition loadDistricts (st : Store) (f : Filters) (isAdmin isPlacingFacility : bool)
  : list DistrictLayer :=
  flat_map (fun district =>
    if negb (has (selectedDistricts f) (d_id district)) then []
    else match d_geometry district with
         | Some _ =>
             [mkDistrictLayer district
                (if negb isPlacingFacility
                 then Some (districtPopup st isAdmin district) else None)]
         | None => []
         end) (districts st).

(** The six keys of the [facilityCounts] record of the park popup. *)
Definition facilityCountKeys : list string :=
  ["SPORTS_PLAYGROUND"; "CHILD_PLAYGROUND"; "NTO"; "TOILET"; "CHILL";
   "CHILDREN_ROOM"]%string.

Definition parkPopup (st : Store) (isAdmin : bool) (park : Park) : Popup :=
  let district :=
    find (fun d => bool_decide (Some (d_id d) = districtId park)) (districts st) in
  let parkFacilities :=
    List.filter (fun f => bool_decide (parkId f = Some (p_id park))) (facilities st) in
  let facilityCounts :=
    map (fun type =>
           (FACILITY_TYPES type,
            length (List.filter (fun f => bool_decide (f_type f = type)) parkFacilities)))
        facilityCountKeys in
  [Heading (p_name park)]
  ++ match district with
     | Some d => [Field DistrictLabel (d_name d)]
     | None => []
     end
  ++ field_if DescriptionLabel (p_description park)
  ++ match p_area park with
     | Some a => part_if (truthy_number a) (AreaField a)
     | None => []
     end
  ++ field_if BalanceHolderLabel (balanceHolder park)
  ++ [CountItems facilityCounts]
  ++ part_if isAdmin (AdminButtons (p_id park))
  ++ [CloseButton].

(** [loadParks], run on the layer group that the calling effect has just
    cleared; the result is the content of [drawnItems] afterwards. *)
Definition loadParks (st : Store) (f : Filters) (isAdmin isPlacingFacility : bool)
  : list ParkLayer :=
  flat_map (fun park =>
    (* Filter: Skip if park is not selected *)
    if negb (has (selectedParks f) (p_id park)) then []
    (* Filter: Skip if park's district is not selected *)
    else if truthy_num (districtId park)
            && negb (has_num (selectedDistricts f) (districtId park)) then []
    else match p_geometry park with
         | Some _ =>
             [mkParkLayer park
                (if negb isPlacingFacility
                 then Some (parkPopup st isAdmin park) else None)]
         | None => []
         end) (parks st).

(** *** The contract term of the facility popup

    [contractTerm.match(/\[(\d{4}-\d{2}-\d{2}),(\d{4}-\d{2}-\d{2})\)/)]:
    the pattern has no anchors, so the first position of the string at
    which it matches gives the two groups.  [\d] is an ASCII digit. *)

Definition is_digit (c : ascii) : bool :=
  let n := nat_of_ascii c in (48 <=? n)%nat && (n <=? 57)%nat.

(** [\d{n}] at the head of [s]: the digits read and the rest of [s]. *)
Fixpoint digits (n : nat) (s : string) : option (string * string) :=
  match n with
  | O => Some (EmptyString, s)
  | S n' =>
      match s with
      | String c s' =>
          if is_digit c then
            match digits n' s' with
            | Some (ds, rest) => Some (String c ds, rest)
            | None => None
            end
          else None
      | EmptyString => None
      end
  end.

(** One literal character at the head of [s]. *)
Definition char (c : ascii) (s : string) : option string :=
  match s with
  | String c' s' => if Ascii.eqb c c' then Some s' else None
  | EmptyString => None
  end.

(** [\d{4}-\d{2}-\d{2}] at the head of [s]. *)
Definition date (s : string) : option (string * string) :=
  match digits 4 s with
  | Some (y, s1) =>
      match char "-" s1 with
      | Some s2 =>
          match digits 2 s2 with
          | Some (m, s3) =>
              match char "-" s3 with
              | Some s4 =>
                  match digits 2 s4 with
                  | Some (d, s5) => Some (y +:+ "-" +:+ m +:+ "-" +:+ d, s5)
                  | None => None
                  end
              | None => None
              end
          | None => None
          end
      | None => None
      end
  | None => None
  end.

(** The whole pattern at the head of [s]: the groups [match[1]] and
    [match[2]]. *)
Definition match_here (s : string) : option (string * string) :=
  match char "[" s with
  | Some s1 =>
      match date s1 with
      | Some (startDate, s2) =>
          match char "," s2 with
          | Some s3 =>
              match date s3 with
              | Some (endDate, s4) =>
                  match char ")" s4 with
                  | Some _ => Some (startDate, endDate)
                  | None => None
                  end
              | None => None
              end
          | None => None
          end
      | None => None
      end
  | None => None
  end.

(** [String.prototype.match] with this pattern: the leftmost match. *)
Fixpoint regex_match (s : string) : option (string * string) :=
  match match_here s with
  | Some groups => Some groups
  | None =>
      match s with
      | String _ s' => regex_match s'
      | EmptyString => None
      end
  end.

Definition formattedContractTerm (facility : Facility) : string :=
  match contractTerm facility with
  | Some term =>
      if truthy_str term then
        match regex_match term with
        | Some (startDate, endDate) =>
            "от " +:+ toLocaleDateString startDate +:+ " до "
            +:+ toLocaleDateString endDate
        | None => EmptyString
        end
      else EmptyString
  | None => EmptyString
  end.

Definition defaultIcon : string := "📍".

(** [a || b] on strings read from a table. *)
Definition or_else (a : option string) (b : string) : string :=
  match a with
  | Some s => if truthy_str s then s else b
  | None => b
  end.

(** [parks.find((p) => p.id === facility.parkId)] *)
Definition parkOf (st : Store) (facility : Facility) : option Park :=
  find (fun p => bool_decide (Some (p_id p) = parkId facility)) (parks st).

Definition facilityPopup (st : Store) (isAdmin : bool) (facility : Facility) : Popup :=
  let park := parkOf st facility in
  let term := formattedContractTerm facility in
  match photo facility with
  | Some src => part_if (truthy_str src) (Image src)
  | None => []
  end
  ++ [Heading (f_name facility);
      Position (latitude facility) (longitude facility);
      Field TypeLabel (or_else (FACILITY_TYPES (f_type facility)) (f_type facility))]
  ++ match park with
     | Some p => [Field ParkLabel (p_name p)]
     | None => []
     end
  ++ field_if DescriptionLabel (f_description facility)
  ++ field_if SpecializationLabel (contractAction facility)
  ++ field_if ContractWithLabel (contractWith facility)
  ++ part_if (truthy_str term) (Field ContractTermLabel term)
  ++ part_if isAdmin (AdminButtons (f_id facility))
  ++ [CloseButton].

(** The three filters of [loadFacilities], in the order of the source. *)
Definition facilityShown (st : Store) (f : Filters) (facility : Facility) : bool :=
  (* Filter: Skip if facility type is not selected *)
  if negb (has (selectedFacilityTypes f) (f_type facility)) then false
  (* Filter: Skip if facility's park is not selected *)
  else if truthy_num (parkId facility)
          && negb (has_num (selectedParks f) (parkId facility)) then false
  (* Filter: Skip if facility's park's district is not selected *)
  else match parkOf st facility with
       | Some park =>
           negb (truthy_num (districtId park)
                 && negb (has_num (selectedDistricts f) (districtId park)))
       | None => true
       end.

(** [loadFacilities]: the content of [markerClusterGroup] after the pass. *)
Definition loadFacilities (st : Store) (f : Filters) (isAdmin isPlacingFacility : bool)
  : list Marker :=
  flat_map (fun facility =>
    if facilityShown st f facility then
      [mkMarker facility
         (or_else (FACILITY_ICONS (f_type facility)) defaultIcon)
         (if negb isPlacingFacility
          then Some (facilityPopup st isAdmin facility) else None)]
    else []) (facilities st).

(** ** Map.svelte: the interaction modes

    The three [$state] flags, the draw handler the component holds, and
    the one-shot click listeners attached to the map.  The controls and
    the [L.Draw.Event.CREATED] listener exist in admin mode only
    ([setupDrawControls]); this is the admin's component.  The scan that
    strips the draw tool's transient layers changes neither the flags nor
    what is emitted and is left out. *)

(** A [L.Draw.Polygon] handler together with whether it is enabled. *)
Record DrawHandler := mkDrawHandler {
  enabled : bool
}.

Record Modes := mkModes {
  isDrawingDistrict : bool;
  isDrawingPark : bool;
  isPlacingFacility : bool;
  activeDrawHandler : option DrawHandler;
  (** listeners attached with [map.once('click', ...)] *)
  clickListeners : nat;
  (** polygons added to [drawnItems] by the CREATED listener *)
  drawnPolygons : list (Geometry number)
}.

Definition idle : Modes := mkModes false false false None 0 [].

(** What the component calls back: [onDistrictCreate], [onParkCreate],
    [onFacilityCreate]. *)
Inductive Creation :=
| DistrictCreate (geometry : Geometry number)
| ParkCreate (geometry : Geometry number)
| FacilityCreate (lat lng : number).

Inductive Mode := DrawingDistrict | DrawingPark | PlacingFacility.

Definition creationMode (c : Creation) : Mode :=
  match c with
  | DistrictCreate _ => DrawingDistrict
  | ParkCreate _ => DrawingPark
  | FacilityCreate _ _ => PlacingFacility
  end.

(** [cancelAllModes]: the handler is disabled and dropped, [map.off('click')]
    detaches every click listener, the three flags are cleared. *)
Definition cancelAllModes (m : Modes) : Modes :=
  mkModes false false false None 0 (drawnPolygons m).

Definition startDrawingDistrict (m : Modes) : Modes :=
  let m := cancelAllModes m in
  mkModes true (isDrawingPark m) (isPlacingFacility m)
          (Some (mkDrawHandler true)) (clickListeners m) (drawnPolygons m).

Definition startDrawingPark (m : Modes) : Modes :=
  let m := cancelAllModes m in
  mkModes (isDrawingDistrict m) true (isPlacingFacility m)
          (Some (mkDrawHandler true)) (clickListeners m) (drawnPolygons m).

Definition startPlacingFacility (m : Modes) : Modes :=
  let m := cancelAllModes m in
  mkModes (isDrawingDistrict m) (isDrawingPark m) true
          (activeDrawHandler m) (S (clickListeners m)) (drawnPolygons m).

(** The listener of [L.Draw.Event.CREATED]. *)
Definition onCreated (layerType : string) (geometry : Geometry number) (m : Modes)
  : Modes * list Creation :=
  if bool_decide (layerType = "polygon") then
    if isDrawingDistrict m then
      (mkModes false (isDrawingPark m) (isPlacingFacility m) None
               (clickListeners m) (drawnPolygons m),
       [DistrictCreate geometry])
    else if isDrawingPark m then
      (mkModes (isDrawingDistrict m) false (isPlacingFacility m) None
               (clickListeners m) (drawnPolygons m ++ [geometry]),
       [ParkCreate geometry])
    else (m, [])
  else (m, []).

(** One run of the listener that [startPlacingFacility] attaches. *)
Definition onPlaceClick (lat lng : number) (m : Modes) : Modes * list Creation :=
  (mkModes (isDrawingDistrict m) (isDrawingPark m) false None
           (clickListeners m) (drawnPolygons m),
   [FacilityCreate lat lng]).

(** A click on the map runs every attached one-shot listener once and
    detaches it. *)
Fixpoint runClickListeners (n : nat) (lat lng : number) (m : Modes)
  : Modes * list Creation :=
  match n with
  | O => (m, [])
  | S n' =>
      let '(m1, out1) := onPlaceClick lat lng m in
      let '(m2, out2) := runClickListeners n' lat lng m1 in
      (m2, out1 ++ out2)
  end.

Definition onMapClick (lat lng : number) (m : Modes) : Modes * list Creation :=
  runClickListeners (clickListeners m) lat lng
    (mkModes (isDrawingDistrict m) (isDrawingPark m) (isPlacingFacility m)
             (activeDrawHandler m) 0 (drawnPolygons m)).

(** What can happen to the component: the four buttons, and the two map
    events the component listens to. *)
Inductive Event :=
| StartDrawingDistrict
| StartDrawingPark
| StartPlacingFacility
| Cancel
| Created (layerType : string) (geometry : Geometry number)
| MapClick (lat lng : number).

Definition step (m : Modes) (e : Event) : Modes * list Creation :=
  match e with
  | StartDrawingDistrict => (startDrawingDistrict m, [])
  | StartDrawingPark => (startDrawingPark m, [])
  | StartPlacingFacility => (startPlacingFacility m, [])
  | Cancel => (cancelAllModes m, [])
  | Created layerType geometry => onCreated layerType geometry m
  | MapClick lat lng => onMapClick lat lng m
  end.

(** A sequence of events, with everything called back on the way. *)
Fixpoint run (m : Modes) (es : list Event) : Modes * list Creation :=
  match es with
  | [] => (m, [])
  | e :: es' =>
      let '(m1, out1) := step m e in
      let '(m2, out2) := run m1 es' in
      (m2, out1 ++ out2)
  end.

Definition start (mode : Mode) : Event :=
  match mode with
  | DrawingDistrict => StartDrawingDistrict
  | DrawingPark => StartDrawingPark
  | PlacingFacility => StartPlacingFacility
  end.

Definition isStart (e : Event) : bool :=
  match e with
  | StartDrawingDistrict | StartDrawingPark | StartPlacingFacility => true
  | _ => false
  end.

(** The flag of a mode. *)
Definition flag (mode : Mode) (m : Modes) : bool :=
  match mode with
  | DrawingDistrict => isDrawingDistrict m
  | DrawingPark => isDrawingPark m
  | PlacingFacility => isPlacingFacility m
  end.

(** How many of the three flags are set. *)
Definition flagsSet (m : Modes) : nat :=
  Nat.b2n (isDrawingDistrict m) + Nat.b2n (isDrawingPark m)
  + Nat.b2n (isPlacingFacility m).

(** ** Facts about the filter state *)

Lemma has_true `{Countable A} (s : gset A) (x : A) : has s x = true <-> x ∈ s.
Proof. unfold has. apply bool_decide_eq_true. Qed.

Lemma has_false `{Countable A} (s : gset A) (x : A) : has s x = false <-> x ∉ s.
Proof. unfold has. apply bool_decide_eq_false. Qed.

(** A falsy [districtId] is [null] or [0]. *)
Lemma truthy_num_false (x : option Z) :
  truthy_num x = false <-> x = None \/ x = Some 0%Z.
Proof.
  destruct x as [n|]; simpl.
  - rewrite negb_false_iff, Z.eqb_eq. split.
    + intros ->. now right.
    + intros [Hn|Hn]; [discriminate | now injection Hn].
  - split; [now left | reflexivity].
Qed.

Lemma truthy_num_true (x : option Z) :
  truthy_num x = true <-> exists n, x = Some n /\ n <> 0%Z.
Proof.
  destruct x as [n|]; simpl.
  - rewrite negb_true_iff, Z.eqb_neq. split.
    + intros Hn. now exists n.
    + intros (k & Hk & Hn). now injection Hk as ->.
  - split; [discriminate | intros (n & Hn & _); discriminate].
Qed.

Lemma inSelectedDistrict_true (sel : gset Z) (park : Park) :
  inSelectedDistrict sel park = true <->
  districtId park = None \/ districtId park = Some 0%Z
  \/ exists d, districtId park = Some d /\ d ∈ sel.
Proof.
  unfold inSelectedDistrict. rewrite orb_true_iff, negb_true_iff, truthy_num_false.
  destruct (districtId park) as [d|]; simpl.
  - rewrite has_true. split.
    + intros [[H|H]|H]; [discriminate | now right; left | right; right; now exists d].
    + intros [H|[H|(k & Hk & H)]]; [discriminate | left; now right |].
      injection Hk as ->. now right.
  - split; [now left | intros _; left; now left].
Qed.

Lemma inDeselectedDistrict_true (sel : gset Z) (park : Park) :
  inDeselectedDistrict sel park = true <->
  exists d, districtId park = Some d /\ d <> 0%Z /\ d ∉ sel.
Proof.
  unfold inDeselectedDistrict. rewrite andb_true_iff, negb_true_iff, truthy_num_true.
  destruct (districtId park) as [d|]; simpl.
  - rewrite has_false. split.
    + intros [(n & Hn & Hz) Hs]. injection Hn as <-. now exists d.
    + intros (k & Hk & Hz & Hs). injection Hk as <-. split; [now exists d | assumption].
  - split; [intros [(n & Hn & _) _]; discriminate | intros (d & Hd & _); discriminate].
Qed.

Lemma inDeselectedDistrict_negb (sel : gset Z) (park : Park) :
  inDeselectedDistrict sel park = negb (inSelectedDistrict sel park).
Proof.
  unfold inDeselectedDistrict, inSelectedDistrict.
  now destruct (truthy_num (districtId park)), (has_num sel (districtId park)).
Qed.

(** The ids of the parks of a list that pass a test, as a set. *)
Lemma elem_of_filtered_ids (test : Park -> bool) (l : list Park) (x : Z) :
  x ∈ (list_to_set (map p_id (List.filter test l)) : gset Z) <->
  exists p, In p l /\ test p = true /\ p_id p = x.
Proof.
  rewrite elem_of_list_to_set, list_elem_of_In, in_map_iff. split.
  - intros (p & Hx & Hp). apply filter_In in Hp as [Hp Ht]. now exists p.
  - intros (p & Hp & Ht & Hx). exists p. split; [assumption|].
    apply filter_In. now split.
Qed.

Lemma addMissing_union `{Countable A} (xs : list A) (s : gset A) :
  addMissing xs s = s ∪ list_to_set xs.
Proof.
  unfold addMissing. revert s. induction xs as [|x xs IH]; intros s; simpl.
  - apply set_eq. intros y. rewrite elem_of_union, elem_of_empty. tauto.
  - rewrite IH. apply set_eq. intros y. destruct (has s x) eqn:Hx.
    + apply has_true in Hx.
      rewrite !elem_of_union, elem_of_singleton. split; [tauto|].
      intros [H1|[->|H1]]; tauto.
    + rewrite !elem_of_union. tauto.
Qed.

(** The selected-parks set holds only ids of parks of the store. *)
Definition selectedParksInStore (st : Store) (f : Filters) : Prop :=
  forall x, x ∈ selectedParks f -> exists p, In p (parks st) /\ p_id p = x.

Lemma filtersEffect_init_in_store (st : Store) (f : Filters) :
  filtersInitialized f = false -> selectedParksInStore st (filtersEffect st f).
Proof.
  intros Hf x. unfold filtersEffect. rewrite Hf. simpl.
  rewrite elem_of_list_to_set, list_elem_of_In, in_map_iff.
  intros (p & Hx & Hp). now exists p.
Qed.

Lemma filtersEffect_keeps_in_store (st : Store) (f : Filters) :
  selectedParksInStore st f -> selectedParksInStore st (filtersEffect st f).
Proof.
  intros Hinv. destruct (filtersInitialized f) eqn:Hf.
  - intros x. unfold filtersEffect. rewrite Hf. simpl.
    rewrite addMissing_union, elem_of_union, elem_of_list_to_set, list_elem_of_In, in_map_iff.
    intros [Hx|(p & Hx & Hp)]; [now apply Hinv | now exists p].
  - now apply filtersEffect_init_in_store.
Qed.

Lemma selectAllParks_in_store (st : Store) (f : Filters) :
  selectedParksInStore st (selectAllParks st f).
Proof.
  intros x. unfold selectAllParks. simpl. rewrite elem_of_filtered_ids.
  intros (p & Hp & _ & Hx). now exists p.
Qed.

Lemma deselectAllParks_in_store (st : Store) (f : Filters) :
  selectedParksInStore st (deselectAllParks st f).
Proof.
  intros x. unfold deselectAllParks. simpl. rewrite elem_of_filtered_ids.
  intros (p & Hp & _ & Hx). now exists p.
Qed.

Lemma togglePark_in_store (st : Store) (f : Filters) (p : Park) :
  In p (parks st) -> selectedParksInStore st f ->
  selectedParksInStore st (togglePark (p_id p) f).
Proof.
  intros Hp Hinv x. unfold togglePark, toggle. simpl.
  destruct (has (selectedParks f) (p_id p)).
  - rewrite elem_of_difference. intros [Hx _]. now apply Hinv.
  - rewrite elem_of_union, elem_of_singleton.
    intros [Hx| ->]; [now apply Hinv | now exists p].
Qed.

(** The states of the store and of the filters that the component goes
    through as long as no park leaves the store: the filters are
    initialised; the effect runs again; a checkbox of the panel is
    toggled (the panel lists the parks of [filteredParks]); one of the six
    buttons is pressed; the store changes, every id of a park of the old
    store being still the id of a park of the new one. *)
Inductive Reached : Store -> Filters -> Prop :=
| reached_init st f :
    filtersInitialized f = false -> Reached st (filtersEffect st f)
| reached_effect st f :
    Reached st f -> Reached st (filtersEffect st f)
| reached_togglePark st f p :
    Reached st f -> In p (filteredParks st f) -> Reached st (togglePark (p_id p) f)
| reached_toggleDistrict st f id :
    Reached st f -> Reached st (toggleDistrict id f)
| reached_toggleFacilityType st f type :
    Reached st f -> Reached st (toggleFacilityType type f)
| reached_selectAllDistricts st f :
    Reached st f -> Reached st (selectAllDistricts st f)
| reached_deselectAllDistricts st f :
    Reached st f -> Reached st (deselectAllDistricts f)
| reached_selectAllParks st f :
    Reached st f -> Reached st (selectAllParks st f)
| reached_deselectAllParks st f :
    Reached st f -> Reached st (deselectAllParks st f)
| reached_selectAllFacilityTypes st f :
    Reached st f -> Reached st (selectAllFacilityTypes f)
| reached_deselectAllFacilityTypes st f :
    Reached st f -> Reached st (deselectAllFacilityTypes f)
| reached_store st st' f :
    Reached st f ->
    (forall p, In p (parks st) -> exists q, In q (parks st') /\ p_id q = p_id p) ->
    Reached st' f.

Lemma Reached_in_store (st : Store) (f : Filters) :
  Reached st f -> selectedParksInStore st f.
Proof.
  induction 1 as [st f Hf | st f _ IH | st f p _ IH Hp | st f id _ IH
                 | st f type _ IH | st f _ IH | st f _ IH | st f _ IH
                 | st f _ IH | st f _ IH | st f _ IH | st st' f _ IH Hgrow];
    try exact IH.
  - now apply filtersEffect_init_in_store.
  - now apply filtersEffect_keeps_in_store.
  - apply togglePark_in_store; [|exact IH].
    unfold filteredParks in Hp. now apply filter_In in Hp as [Hp _].
  - apply selectAllParks_in_store.
  - apply deselectAllParks_in_store.
  - intros x Hx. destruct (IH x Hx) as (p & Hp & <-).
    destruct (Hgrow p Hp) as (q & Hq & Hid). now exists q.
Qed.

(** C8: after select-all-parks the selected-parks set is exactly the set
    of the ids of the parks of the store that have no districtId ([null],
    or the falsy [0]) or whose districtId is currently selected; a park
    under a deselected district, whose id no other park of the store
    shares, is not in it.  The other selections are untouched. *)
Theorem selectAllParks_scoped (st : Store) (f : Filters) :
  (forall x, x ∈ selectedParks (selectAllParks st f) <->
     exists p, In p (parks st) /\ p_id p = x /\
       (districtId p = None \/ districtId p = Some 0%Z
        \/ exists d, districtId p = Some d /\ d ∈ selectedDistricts f))
  /\ (forall p, In p (parks st) ->
        (exists d, districtId p = Some d /\ d <> 0%Z /\ d ∉ selectedDistricts f) ->
        (forall q, In q (parks st) -> p_id q = p_id p -> q = p) ->
        p_id p ∉ selectedParks (selectAllParks st f))
  /\ selectedDistricts (selectAllParks st f) = selectedDistricts f
  /\ selectedFacilityTypes (selectAllParks st f) = selectedFacilityTypes f.
Proof.
  assert (Hiff : forall x, x ∈ selectedParks (selectAllParks st f) <->
     exists p, In p (parks st) /\ p_id p = x /\
       (districtId p = None \/ districtId p = Some 0%Z
        \/ exists d, districtId p = Some d /\ d ∈ selectedDistricts f)).
  { intros x. unfold selectAllParks. simpl. rewrite elem_of_filtered_ids.
    split; intros (p & Hp & H1 & H2); exists p.
    - apply inSelectedDistrict_true in H1. now repeat split.
    - apply inSelectedDistrict_true in H2. now repeat split. }
  split; [exact Hiff|]. split; [|now split].
  intros p Hp Hout Huniq Hin. apply Hiff in Hin as (q & Hq & Hid & Hsel).
  apply Huniq in Hid as ->; [|assumption].
  apply inSelectedDistrict_true in Hsel. apply inDeselectedDistrict_true in Hout.
  rewrite inDeselectedDistrict_negb, Hsel in Hout. discriminate.
Qed.

(** C1, as the code has it by design: deselect-all-parks leaves the
    district and type selections alone; every id it leaves selected is the
    id of a park of the store under a deselected district (so a park with
    no districtId, or under a selected district, is deselected unless a
    park under a deselected district shares its id); and a park under a
    deselected district that was selected stays selected. *)
Theorem deselectAllParks_scoped (st : Store) (f : Filters) :
  selectedDistricts (deselectAllParks st f) = selectedDistricts f
  /\ selectedFacilityTypes (deselectAllParks st f) = selectedFacilityTypes f
  /\ (forall x, x ∈ selectedParks (deselectAllParks st f) ->
        exists p, In p (parks st) /\ p_id p = x /\
          exists d, districtId p = Some d /\ d <> 0%Z /\ d ∉ selectedDistricts f)
  /\ (forall p, In p (parks st) ->
        (exists d, districtId p = Some d /\ d <> 0%Z /\ d ∉ selectedDistricts f) ->
        p_id p ∈ selectedParks f ->
        p_id p ∈ selectedParks (deselectAllParks st f)).
Proof.
  split; [reflexivity|]. split; [reflexivity|]. split.
  - intros x. unfold deselectAllParks. simpl. rewrite elem_of_filtered_ids.
    intros (p & Hp & Hout & Hx). exists p.
    apply inDeselectedDistrict_true in Hout. now repeat split.
  - intros p Hp Hout _. unfold deselectAllParks. simpl.
    apply elem_of_filtered_ids. exists p.
    apply inDeselectedDistrict_true in Hout. now repeat split.
Qed.

(** ** Facts about the render passes *)

(** C2, with the guard of the code: the park pass draws a layer for a
    park exactly when the park is in the store, its id is selected, it has
    no districtId ([null], or the falsy [0]) or its districtId is
    selected, and it has a geometry. *)
Theorem loadParks_draws_iff (st : Store) (f : Filters)
    (isAdmin placing : bool) (p : Park) :
  (exists layer, In layer (loadParks st f isAdmin placing) /\ pl_park layer = p)
  <->
  In p (parks st)
  /\ p_id p ∈ selectedParks f
  /\ (districtId p = None \/ districtId p = Some 0%Z
      \/ exists d, districtId p = Some d /\ d ∈ selectedDistricts f)
  /\ p_geometry p <> None.
Proof.
  unfold loadParks. split.
  - intros (layer & Hin & Hp). apply in_flat_map in Hin as (q & Hq & Hin).
    destruct (has (selectedParks f) (p_id q)) eqn:Hsel; simpl in Hin; [|contradiction].
    fold (inDeselectedDistrict (selectedDistricts f) q) in Hin.
    rewrite inDeselectedDistrict_negb in Hin.
    destruct (inSelectedDistrict (selectedDistricts f) q) eqn:Hd; simpl in Hin;
      [|contradiction].
    destruct (p_geometry q) eqn:Hg; [|contradiction].
    destruct Hin as [<-|[]]. simpl in Hp. subst q.
    apply has_true in Hsel. apply inSelectedDistrict_true in Hd.
    repeat split; try assumption. now rewrite Hg.
  - intros (Hp & Hsel & Hd & Hg).
    apply has_true in Hsel. apply inSelectedDistrict_true in Hd.
    destruct (p_geometry p) as [g|] eqn:Hgeo; [|now contradiction Hg].
    exists (mkParkLayer p
              (if negb placing then Some (parkPopup st isAdmin p) else None)).
    split; [|reflexivity]. apply in_flat_map. exists p. split; [assumption|].
    rewrite Hsel. simpl. fold (inDeselectedDistrict (selectedDistricts f) p).
    rewrite inDeselectedDistrict_negb, Hd, Hgeo. simpl. now left.
Qed.

Lemma facilityShown_true (st : Store) (f : Filters) (fac : Facility) :
  facilityShown st f fac = true <->
  f_type fac ∈ selectedFacilityTypes f
  /\ (forall k, parkId fac = Some k -> k <> 0%Z -> k ∈ selectedParks f)
  /\ (forall p, parkOf st fac = Some p ->
        districtId p = None \/ districtId p = Some 0%Z
        \/ exists d, districtId p = Some d /\ d ∈ selectedDistricts f).
Proof.
  unfold facilityShown.
  destruct (has (selectedFacilityTypes f) (f_type fac)) eqn:Ht; simpl.
  2:{ apply has_false in Ht. split; [discriminate | intros [H _]; contradiction]. }
  apply has_true in Ht.
  destruct (truthy_num (parkId fac) && negb (has_num (selectedParks f) (parkId fac)))
    eqn:Hp.
  { apply andb_true_iff in Hp as [Hk Hs]. apply truthy_num_true in Hk as (k & Hk & Hz).
    rewrite Hk in Hs. simpl in Hs. apply negb_true_iff, has_false in Hs.
    split; [discriminate|]. intros (_ & H & _). now specialize (H k Hk Hz). }
  assert (Hsel : forall k, parkId fac = Some k -> k <> 0%Z -> k ∈ selectedParks f).
  { intros k Hk Hz. apply andb_false_iff in Hp as [Hp|Hp].
    - apply truthy_num_false in Hp as [Hp|Hp]; rewrite Hk in Hp;
        [discriminate | now injection Hp].
    - rewrite Hk in Hp. simpl in Hp. now apply negb_false_iff, has_true in Hp. }
  destruct (parkOf st fac) as [park|].
  - fold (inDeselectedDistrict (selectedDistricts f) park).
    rewrite inDeselectedDistrict_negb, negb_involutive, inSelectedDistrict_true.
    split.
    + intros Hd. repeat split; try assumption. now intros p [= <-].
    + intros (_ & _ & Hd). now apply Hd.
  - split; [|reflexivity]. intros _. repeat split; try assumption. discriminate.
Qed.

(** [parks.find] returns the first park of the store with the id. *)
Lemma parkOf_Some (st : Store) (fac : Facility) (p : Park) :
  parkOf st fac = Some p -> In p (parks st) /\ parkId fac = Some (p_id p).
Proof.
  unfold parkOf. intros H. apply find_some in H as [Hin Heq].
  apply bool_decide_eq_true in Heq. now split.
Qed.

Lemma parkOf_None (st : Store) (fac : Facility) :
  parkOf st fac = None <-> forall p, In p (parks st) -> parkId fac <> Some (p_id p).
Proof.
  unfold parkOf. split.
  - intros H p Hp Heq. eapply find_none in H; [|exact Hp].
    apply bool_decide_eq_false in H. now apply H.
  - intros H. destruct (find _ (parks st)) as [p|] eqn:Hf; [|reflexivity].
    apply find_some in Hf as [Hin Heq]. apply bool_decide_eq_true in Heq.
    now contradiction (H p Hin).
Qed.

(** The facility pass adds a marker for a facility exactly when the
    facility is in the store and passes the three filters. *)
Lemma loadFacilities_marker (st : Store) (f : Filters)
    (isAdmin placing : bool) (fac : Facility) :
  (exists marker, In marker (loadFacilities st f isAdmin placing)
                  /\ m_facility marker = fac)
  <-> In fac (facilities st) /\ facilityShown st f fac = true.
Proof.
  unfold loadFacilities. split.
  - intros (marker & Hin & Hm). apply in_flat_map in Hin as (q & Hq & Hin).
    destruct (facilityShown st f q) eqn:Hs; [|contradiction].
    destruct Hin as [<-|[]]. simpl in Hm. subst q. now split.
  - intros [Hin Hs].
    exists (mkMarker fac (or_else (FACILITY_ICONS (f_type fac)) defaultIcon)
              (if negb placing then Some (facilityPopup st isAdmin fac) else None)).
    split; [|reflexivity].
    apply in_flat_map. exists fac. split; [assumption|]. rewrite Hs. now left.
Qed.

(** [find] returns the first park of the list that has the facility's
    parkId as id. *)
Lemma parkOf_first (st : Store) (fac : Facility) (p : Park) :
  parkOf st fac = Some p <->
  exists before after,
    parks st = before ++ p :: after
    /\ parkId fac = Some (p_id p)
    /\ forall q, In q before -> p_id q <> p_id p.
Proof.
  unfold parkOf. induction (parks st) as [|x l IH].
  - split; [discriminate|]. intros (before & after & Hl & _).
    now destruct before.
  - simpl. destruct (bool_decide (Some (p_id x) = parkId fac)) eqn:Hx.
    + apply bool_decide_eq_true in Hx. split.
      * intros [= <-]. exists [], l. split; [reflexivity|].
        split; [now symmetry | intros q []].
      * intros (before & after & Hl & Hid & Hfirst).
        destruct before as [|y before]; simpl in Hl.
        -- now injection Hl as ->.
        -- injection Hl as <- _. contradiction (Hfirst x (or_introl eq_refl)).
           rewrite Hid in Hx. now injection Hx.
    + apply bool_decide_eq_false in Hx. rewrite IH. split.
      * intros (before & after & -> & Hid & Hfirst).
        exists (x :: before), after. split; [reflexivity|]. split; [assumption|].
        intros q [<-|Hq]; [|now apply Hfirst].
        intros Heq. apply Hx. now rewrite Hid, Heq.
      * intros (before & after & Hl & Hid & Hfirst).
        destruct before as [|y before]; simpl in Hl.
        -- injection Hl as -> _. contradiction Hx. now symmetry.
        -- injection Hl as _ ->. exists before, after.
           split; [reflexivity|]. split; [assumption|].
           intros q Hq. apply Hfirst. now right.
Qed.

(** C3: the facility pass adds a marker for a facility exactly when the
    facility is in the store, its type is selected, its parkId, when it
    has one (not [null], not the falsy [0]), is in the selected-parks set,
    and the first park of the store that has the facility's parkId as id,
    when there is one, has no districtId or a selected districtId.  So
    for a facility whose park is in the store the marker is there exactly
    when the type is selected, the park's id is selected and the park's
    district, if any, is selected; and for a facility with no parkId the
    selected type is enough. *)
Theorem loadFacilities_marker_iff (st : Store) (f : Filters)
    (isAdmin placing : bool) (fac : Facility) :
  ((exists marker, In marker (loadFacilities st f isAdmin placing)
                   /\ m_facility marker = fac)
   <->
   In fac (facilities st)
   /\ f_type fac ∈ selectedFacilityTypes f
   /\ (forall k, parkId fac = Some k -> k <> 0%Z -> k ∈ selectedParks f)
   /\ (forall before p after,
         parks st = before ++ p :: after ->
         parkId fac = Some (p_id p) ->
         (forall q, In q before -> p_id q <> p_id p) ->
         districtId p = None \/ districtId p = Some 0%Z
         \/ exists d, districtId p = Some d /\ d ∈ selectedDistricts f))
  /\ (forall before p after,
        parks st = before ++ p :: after ->
        parkId fac = Some (p_id p) ->
        (forall q, In q before -> p_id q <> p_id p) ->
        p_id p <> 0%Z ->
        ((exists marker, In marker (loadFacilities st f isAdmin placing)
                         /\ m_facility marker = fac)
         <->
         In fac (facilities st)
         /\ f_type fac ∈ selectedFacilityTypes f
         /\ p_id p ∈ selectedParks f
         /\ (districtId p = None \/ districtId p = Some 0%Z
             \/ exists d, districtId p = Some d /\ d ∈ selectedDistricts f)))
  /\ (parkId fac = None ->
        ((exists marker, In marker (loadFacilities st f isAdmin placing)
                         /\ m_facility marker = fac)
         <-> In fac (facilities st) /\ f_type fac ∈ selectedFacilityTypes f)).
Proof.
  rewrite loadFacilities_marker, facilityShown_true. split; [|split].
  - split.
    + intros (Hin & Ht & Hsel & Hd). repeat split; try assumption.
      intros before p after Hl Hid Hfirst. apply Hd, parkOf_first.
      now exists before, after.
    + intros (Hin & Ht & Hsel & Hd). repeat split; try assumption.
      intros p Hp. apply parkOf_first in Hp as (before & after & Hl & Hid & Hfirst).
      now apply (Hd before p after).
  - intros before p after Hl Hid Hfirst Hz.
    assert (Hp : parkOf st fac = Some p)
      by (apply parkOf_first; now exists before, after).
    rewrite loadFacilities_marker, facilityShown_true. split.
    + intros (Hin & Ht & Hsel & Hd). repeat split; try assumption.
      * now apply (Hsel (p_id p)).
      * now apply Hd.
    + intros (Hin & Ht & Hsel & Hd). repeat split; try assumption.
      * intros k Hk _. rewrite Hid in Hk. now injection Hk as <-.
      * intros q Hq. rewrite Hp in Hq. now injection Hq as <-.
  - intros Hnone. split.
    + intros (Hin & Ht & _). now split.
    + intros [Hin Ht]. repeat split; try assumption.
      * intros k Hk. rewrite Hnone in Hk. discriminate.
      * intros p Hp. apply parkOf_Some in Hp as [_ Hid].
        rewrite Hnone in Hid. discriminate.
Qed.

(** C9, as the code has it: as long as no park has left the store, a
    facility whose non-zero parkId matches no park of the store gets no
    marker, whatever facility types are selected, because the
    selected-parks set then holds only ids of parks of the store. *)
Theorem dangling_facility_hidden (st : Store) (f : Filters)
    (isAdmin placing : bool) (fac : Facility) (k : Z) :
  Reached st f ->
  parkId fac = Some k -> k <> 0%Z ->
  (forall p, In p (parks st) -> p_id p <> k) ->
  (k ∉ selectedParks f)
  /\ ~ exists marker, In marker (loadFacilities st f isAdmin placing)
                      /\ m_facility marker = fac.
Proof.
  intros Hreached Hk Hz Hdangling.
  assert (Hnot : k ∉ selectedParks f).
  { intros Hin. destruct (Reached_in_store st f Hreached k Hin) as (p & Hp & Hid).
    now apply (Hdangling p Hp). }
  split; [exact Hnot|].
  intros Hm. apply loadFacilities_marker in Hm as [_ Hs].
  apply facilityShown_true in Hs as (_ & Hsel & _).
  apply Hnot. now apply Hsel.
Qed.

(** ** Facts about the contract term *)

(** The format of the spec, [[YYYY-MM-DD,YYYY-MM-DD)], following its
    words: a bracket, a date, a comma, a date and a parenthesis, where a
    date is four, two and two digits separated by dashes. *)
Fixpoint all_digits (s : string) : bool :=
  match s with
  | EmptyString => true
  | String c s' => is_digit c && all_digits s'
  end.

Definition digits_format (n : nat) (s : string) : Prop :=
  String.length s = n /\ all_digits s = true.

Definition date_format (s : string) : Prop :=
  exists y m d, digits_format 4 y /\ digits_format 2 m /\ digits_format 2 d
                /\ s = y +:+ "-" +:+ m +:+ "-" +:+ d.

(** The interval string with the two dates [a] and [b]. *)
Definition interval (a b : string) : string :=
  "[" +:+ a +:+ "," +:+ b +:+ ")".

Definition interval_format (s : string) : Prop :=
  exists a b, date_format a /\ date_format b /\ s = interval a b.

(** The string has a part of that format somewhere inside. *)
Definition contains_interval (s : string) : Prop :=
  exists pre a b post,
    date_format a /\ date_format b /\ s = pre +:+ interval a b +:+ post.

Lemma append_cons (x : ascii) (a b : string) :
  String x a +:+ b = String x (a +:+ b).
Proof. reflexivity. Qed.

Lemma append_empty_l (a : string) : EmptyString +:+ a = a.
Proof. reflexivity. Qed.

Lemma append_assoc (a b c : string) : (a +:+ b) +:+ c = a +:+ (b +:+ c).
Proof.
  induction a as [|x a IH]; [reflexivity|].
  rewrite !append_cons. now rewrite IH.
Qed.

Lemma append_empty_r (a : string) : a +:+ EmptyString = a.
Proof.
  induction a as [|x a IH]; [reflexivity|].
  rewrite append_cons. now rewrite IH.
Qed.

Lemma digits_Some (n : nat) (s ds rest : string) :
  digits n s = Some (ds, rest) <-> digits_format n ds /\ s = ds +:+ rest.
Proof.
  unfold digits_format. revert s ds rest.
  induction n as [|n IH]; intros s ds rest; simpl.
  - split.
    + intros [= <- <-]. now repeat split.
    + intros [[Hl _] ->]. destruct ds; [reflexivity | discriminate].
  - split.
    + destruct s as [|c s]; [discriminate|].
      destruct (is_digit c) eqn:Hc; [|discriminate].
      destruct (digits n s) as [[ds' rest']|] eqn:Hd; [|discriminate].
      intros [= <- <-]. apply IH in Hd as [[Hl Ha] ->].
      simpl. rewrite Hl, Hc, Ha. now repeat split.
    + intros [[Hl Ha] ->]. destruct ds as [|c ds]; [discriminate|].
      simpl in Hl, Ha. injection Hl as Hl. apply andb_true_iff in Ha as [Hc Ha].
      rewrite append_cons, Hc.
      assert (H : digits n (ds +:+ rest) = Some (ds, rest))
        by (apply IH; now repeat split).
      now rewrite H.
Qed.

Lemma digits_append (n : nat) (ds rest : string) :
  digits_format n ds -> digits n (ds +:+ rest) = Some (ds, rest).
Proof. intros H. apply digits_Some. now split. Qed.

Lemma char_Some (c : ascii) (s rest : string) :
  char c s = Some rest <-> s = String c rest.
Proof.
  destruct s as [|c' s]; simpl; [split; discriminate|].
  destruct (Ascii.eqb_spec c c') as [<-|Hne].
  - split; [now intros [= ->] | now intros [= ->]].
  - split; [discriminate | intros [= H _]; now contradiction Hne].
Qed.

Lemma char_append (c : ascii) (rest : string) :
  char c (String c EmptyString +:+ rest) = Some rest.
Proof. rewrite append_cons, append_empty_l. simpl. now rewrite Ascii.eqb_refl. Qed.

Lemma date_append (a rest : string) :
  date_format a -> date (a +:+ rest) = Some (a, rest).
Proof.
  intros (y & m & d & Hy & Hm & Hd & ->). unfold date.
  rewrite !append_assoc.
  rewrite (digits_append 4 y _ Hy), char_append.
  rewrite (digits_append 2 m _ Hm), char_append.
  now rewrite (digits_append 2 d _ Hd).
Qed.

Lemma date_Some (s a rest : string) :
  date s = Some (a, rest) -> date_format a /\ s = a +:+ rest.
Proof.
  unfold date. intros H.
  destruct (digits 4 s) as [[y s1]|] eqn:Hy; [|discriminate].
  destruct (char "-" s1) as [s2|] eqn:H1; [|discriminate].
  destruct (digits 2 s2) as [[m s3]|] eqn:Hm; [|discriminate].
  destruct (char "-" s3) as [s4|] eqn:H2; [|discriminate].
  destruct (digits 2 s4) as [[d s5]|] eqn:Hd; [|discriminate].
  injection H as <- <-.
  apply digits_Some in Hy as [Hy ->]. apply char_Some in H1 as ->.
  apply digits_Some in Hm as [Hm ->]. apply char_Some in H2 as ->.
  apply digits_Some in Hd as [Hd ->]. split.
  - now exists y, m, d.
  - rewrite !append_assoc. reflexivity.
Qed.

Lemma match_here_interval (a b post : string) :
  date_format a -> date_format b ->
  match_here (interval a b +:+ post) = Some (a, b).
Proof.
  intros Ha Hb. unfold match_here, interval. rewrite !append_assoc.
  rewrite char_append, (date_append a _ Ha), char_append.
  rewrite (date_append b _ Hb). now rewrite char_append.
Qed.

Lemma match_here_Some (s a b : string) :
  match_here s = Some (a, b) ->
  date_format a /\ date_format b /\ exists post, s = interval a b +:+ post.
Proof.
  unfold match_here. intros H.
  destruct (char "[" s) as [s1|] eqn:H1; [|discriminate].
  destruct (date s1) as [[a' s2]|] eqn:Ha; [|discriminate].
  destruct (char "," s2) as [s3|] eqn:H2; [|discriminate].
  destruct (date s3) as [[b' s4]|] eqn:Hb; [|discriminate].
  destruct (char ")" s4) as [s5|] eqn:H3; [|discriminate].
  injection H as <- <-.
  apply char_Some in H1 as ->. apply date_Some in Ha as [Ha ->].
  apply char_Some in H2 as ->. apply date_Some in Hb as [Hb ->].
  apply char_Some in H3 as ->. repeat split; try assumption.
  exists s5. unfold interval. now rewrite !append_assoc.
Qed.

Lemma regex_match_eq (s : string) :
  regex_match s =
  match match_here s with
  | Some groups => Some groups
  | None => match s with
            | String _ s' => regex_match s'
            | EmptyString => None
            end
  end.
Proof. now destruct s. Qed.

Lemma regex_match_Some (s a b : string) :
  regex_match s = Some (a, b) ->
  exists pre post, date_format a /\ date_format b
                   /\ s = pre +:+ interval a b +:+ post.
Proof.
  induction s as [|c s IH]; rewrite regex_match_eq.
  - discriminate.
  - destruct (match_here (String c s)) as [[a' b']|] eqn:Hm.
    + intros [= -> ->]. apply match_here_Some in Hm as (Ha & Hb & post & Hs).
      now exists EmptyString, post.
    + intros H. apply IH in H as (pre & post & Ha & Hb & ->).
      now exists (String c pre), post.
Qed.

Lemma regex_match_contains (s : string) :
  contains_interval s -> exists a b, regex_match s = Some (a, b).
Proof.
  intros (pre & a & b & post & Ha & Hb & ->).
  induction pre as [|c pre IH]; rewrite regex_match_eq.
  - rewrite append_empty_l, (match_here_interval a b post Ha Hb). now exists a, b.
  - rewrite append_cons.
    destruct (match_here (String c (pre +:+ interval a b +:+ post))) as [[a' b']|].
    + now exists a', b'.
    + exact IH.
Qed.

Lemma regex_match_interval (a b : string) :
  date_format a -> date_format b -> regex_match (interval a b) = Some (a, b).
Proof.
  intros Ha Hb. rewrite regex_match_eq.
  rewrite <- (append_empty_r (interval a b)).
  now rewrite (match_here_interval a b EmptyString Ha Hb).
Qed.

(** Closes a goal whose hypothesis puts a part in a list of parts built
    with other constructors. *)
Ltac not_among H :=
  simpl in H;
  repeat match type of H with
         | _ \/ _ => destruct H as [H|H]; [discriminate H|]
         end;
  contradiction H.

Example regex_match_canonical :
  regex_match "[2024-01-01,2025-01-01)" = Some ("2024-01-01", "2025-01-01")%string.
Proof. reflexivity. Qed.

Example regex_match_unbounded : regex_match "[2024-01-01,)" = None.
Proof. reflexivity. Qed.

Example regex_match_short_month : regex_match "[2024-1-01,2025-01-01)" = None.
Proof. reflexivity. Qed.

Example regex_match_leftmost :
  regex_match "[1999-12-31,[2024-01-01,2025-01-01) [2030-01-01,2031-01-01)"
  = Some ("2024-01-01", "2025-01-01")%string.
Proof. reflexivity. Qed.

(** The popup has the contract-term field exactly when the formatted
    term is not empty, and the field shows it. *)
Lemma contract_field_in_popup (st : Store) (isAdmin : bool) (fac : Facility)
    (line : string) :
  In (Field ContractTermLabel line) (facilityPopup st isAdmin fac) <->
  line = formattedContractTerm fac /\ truthy_str line = true.
Proof.
  unfold facilityPopup, field_if, part_if. rewrite !in_app_iff. split.
  - intros [H|[H|[H|[H|[H|[H|[H|[H|H]]]]]]]].
    + destruct (photo fac) as [src|]; [destruct (truthy_str src)|]; not_among H.
    + not_among H.
    + destruct (parkOf st fac); not_among H.
    + destruct (f_description fac) as [v|]; [destruct (truthy_str v)|]; not_among H.
    + destruct (contractAction fac) as [v|]; [destruct (truthy_str v)|]; not_among H.
    + destruct (contractWith fac) as [v|]; [destruct (truthy_str v)|]; not_among H.
    + destruct (truthy_str (formattedContractTerm fac)) eqn:Ht; simpl in H;
        [|contradiction].
      destruct H as [[= <-]|[]]. now split.
    + destruct isAdmin; not_among H.
    + not_among H.
  - intros [-> Ht]. do 6 right. left. rewrite Ht. now left.
Qed.

(** C6, as the code has it: the popup of a facility has a contract-term
    line exactly when the facility has a contractTerm that contains, at
    any position, a part [[YYYY-MM-DD,YYYY-MM-DD)]; the line is
    made of the two dates of such a part, localized; and for a contractTerm
    that is exactly of that format the line is made of its two dates. *)
Theorem contract_term_line_iff (st : Store) (isAdmin : bool) (fac : Facility) :
  ((exists line, In (Field ContractTermLabel line) (facilityPopup st isAdmin fac))
   <-> exists term, contractTerm fac = Some term /\ contains_interval term)
  /\ (forall line, In (Field ContractTermLabel line) (facilityPopup st isAdmin fac) ->
        exists term pre a b post,
          contractTerm fac = Some term
          /\ date_format a /\ date_format b
          /\ term = pre +:+ interval a b +:+ post
          /\ line = "от " +:+ toLocaleDateString a +:+ " до " +:+ toLocaleDateString b)
  /\ (forall a b, contractTerm fac = Some (interval a b) ->
        date_format a -> date_format b ->
        In (Field ContractTermLabel
              ("от " +:+ toLocaleDateString a +:+ " до " +:+ toLocaleDateString b))
           (facilityPopup st isAdmin fac)).
Proof.
  assert (Hline : forall line,
    In (Field ContractTermLabel line) (facilityPopup st isAdmin fac) ->
    exists term pre a b post,
      contractTerm fac = Some term
      /\ date_format a /\ date_format b
      /\ term = pre +:+ interval a b +:+ post
      /\ line = "от " +:+ toLocaleDateString a +:+ " до " +:+ toLocaleDateString b).
  { intros line [-> Ht]%contract_field_in_popup. unfold formattedContractTerm in Ht |- *.
    destruct (contractTerm fac) as [term|]; [|discriminate].
    destruct (truthy_str term); [|discriminate].
    destruct (regex_match term) as [[a b]|] eqn:Hm; [|discriminate].
    apply regex_match_Some in Hm as (pre & post & Ha & Hb & Hs).
    now exists term, pre, a, b, post. }
  split; [split|split].
  - intros [line Hin].
    destruct (Hline line Hin) as (term & pre & a & b & post & Ht & Ha & Hb & Hs & _).
    exists term. split; [exact Ht|]. now exists pre, a, b, post.
  - intros (term & Hterm & Hc).
    destruct (regex_match_contains term Hc) as (a & b & Hm).
    exists ("от " +:+ toLocaleDateString a +:+ " до " +:+ toLocaleDateString b).
    apply contract_field_in_popup. unfold formattedContractTerm. rewrite Hterm.
    destruct Hc as (pre & a' & b' & post & _ & _ & ->).
    assert (Ht : truthy_str (pre +:+ interval a' b' +:+ post) = true)
      by (destruct pre; reflexivity).
    rewrite Ht, Hm. now split.
  - exact Hline.
  - intros a b Hterm Ha Hb. apply contract_field_in_popup.
    unfold formattedContractTerm. rewrite Hterm.
    rewrite (regex_match_interval a b Ha Hb). now split.
Qed.

(** ** Facts about the interaction modes *)

Definition same_mode (a b : Mode) : bool :=
  match a, b with
  | DrawingDistrict, DrawingDistrict
  | DrawingPark, DrawingPark
  | PlacingFacility, PlacingFacility => true
  | _, _ => false
  end.

(** No flag is set and no click listener is attached. *)
Definition quiet (m : Modes) : Prop :=
  isDrawingDistrict m = false /\ isDrawingPark m = false
  /\ isPlacingFacility m = false /\ clickListeners m = 0.

(** No flag but that of [mode] can be set, and a click listener is
    attached for facility placement only, and once. *)
Definition only (mode : Mode) (m : Modes) : Prop :=
  (forall mode', same_mode mode' mode = false -> flag mode' m = false)
  /\ clickListeners m <= (if same_mode mode PlacingFacility then 1 else 0).

Lemma quiet_only (mode : Mode) (m : Modes) : quiet m -> only mode m.
Proof.
  intros (Hd & Hp & Hf & Hc). split.
  - intros [] _; assumption.
  - rewrite Hc. lia.
Qed.

Lemma start_only (m : Modes) (mode : Mode) : only mode (fst (step m (start mode))).
Proof.
  split.
  - now intros [] H; destruct mode.
  - destruct mode; simpl; lia.
Qed.

Lemma start_flags (m : Modes) (mode mode' : Mode) :
  flag mode' (fst (step m (start mode))) = same_mode mode' mode.
Proof. now destruct mode, mode'. Qed.

Lemma step_quiet (m : Modes) (e : Event) :
  isStart e = false -> quiet m ->
  quiet (fst (step m e)) /\ snd (step m e) = [].
Proof.
  intros He (Hd & Hp & Hf & Hc). destruct e; try discriminate; simpl.
  - now repeat split.
  - unfold onCreated. rewrite Hd, Hp. case_bool_decide; simpl; now repeat split.
  - unfold onMapClick. rewrite Hc. simpl. now repeat split.
Qed.

(** Until the next start, a step calls nothing back and stays in the
    mode, or calls back once, for the mode, and leaves it. *)
Lemma step_only (mode : Mode) (m : Modes) (e : Event) :
  isStart e = false -> only mode m ->
  (only mode (fst (step m e)) /\ snd (step m e) = [])
  \/ (quiet (fst (step m e))
      /\ exists c, snd (step m e) = [c] /\ creationMode c = mode).
Proof.
  intros He [Hflags Hclicks]. destruct e; try discriminate; simpl.
  - left. split; [|reflexivity]. apply quiet_only. now repeat split.
  - unfold onCreated. case_bool_decide; simpl.
    2:{ left. now repeat split. }
    destruct (isDrawingDistrict m) eqn:Hd; simpl.
    + right. destruct mode;
        try (specialize (Hflags DrawingDistrict eq_refl); simpl in Hflags; congruence).
      pose proof (Hflags DrawingPark eq_refl) as H1.
      pose proof (Hflags PlacingFacility eq_refl) as H2.
      simpl in *. split; [repeat split; simpl; solve [assumption | reflexivity | lia]|].
      now eexists.
    + destruct (isDrawingPark m) eqn:Hp; simpl.
      * right. destruct mode;
          try (specialize (Hflags DrawingPark eq_refl); simpl in Hflags; congruence).
        pose proof (Hflags PlacingFacility eq_refl) as H2.
        simpl in *. split; [repeat split; simpl; solve [assumption | reflexivity | lia]|].
        now eexists.
      * left. now repeat split.
  - unfold onMapClick. destruct (clickListeners m) as [|[|n]] eqn:Hc; simpl.
    + left. split; [split|reflexivity]; simpl.
      * intros mode' H. specialize (Hflags mode' H). now destruct mode'.
      * lia.
    + right. destruct mode; simpl in Hclicks; try lia.
      pose proof (Hflags DrawingDistrict eq_refl) as H1.
      pose proof (Hflags DrawingPark eq_refl) as H2.
      simpl in *. split; [now repeat split|]. now eexists.
    + destruct mode; simpl in Hclicks; lia.
Qed.

Lemma run_quiet (m : Modes) (es : list Event) :
  forallb (fun e => negb (isStart e)) es = true -> quiet m ->
  snd (run m es) = [].
Proof.
  revert m. induction es as [|e es IH]; intros m Hes Hq; [reflexivity|].
  simpl in Hes. apply andb_true_iff in Hes as [He Hes]. apply negb_true_iff in He.
  destruct (step_quiet m e He Hq) as [Hq' Hout]. simpl.
  destruct (step m e) as [m1 out1]. simpl in *.
  specialize (IH m1 Hes Hq'). destruct (run m1 es) as [m2 out2]. simpl in *.
  now rewrite Hout, IH.
Qed.

Lemma run_only (mode : Mode) (m : Modes) (es : list Event) :
  forallb (fun e => negb (isStart e)) es = true -> only mode m ->
  snd (run m es) = []
  \/ exists c, snd (run m es) = [c] /\ creationMode c = mode.
Proof.
  revert m. induction es as [|e es IH]; intros m Hes Ho; [now left|].
  simpl in Hes. apply andb_true_iff in Hes as [He Hes]. apply negb_true_iff in He.
  simpl. destruct (step_only mode m e He Ho) as [[Ho' Hout]|[Hq (c & Hout & Hc)]].
  - specialize (IH (fst (step m e)) Hes Ho').
    destruct (step m e) as [m1 out1]. simpl in *.
    destruct (run m1 es) as [m2 out2]. simpl in *. now rewrite Hout.
  - pose proof (run_quiet (fst (step m e)) es Hes Hq) as Hrest.
    destruct (step m e) as [m1 out1]. simpl in *.
    destruct (run m1 es) as [m2 out2]. simpl in *.
    right. exists c. now rewrite Hout, Hrest.
Qed.

Lemma runClickListeners_flags (n : nat) (lat lng : number) (m : Modes) :
  flagsSet (fst (runClickListeners n lat lng m)) <= flagsSet m.
Proof.
  revert m. induction n as [|n IH]; intros m; simpl; [lia|].
  specialize (IH (mkModes (isDrawingDistrict m) (isDrawingPark m) false None
                          (clickListeners m) (drawnPolygons m))).
  destruct (runClickListeners n lat lng _) as [m2 out2]. simpl in *.
  unfold flagsSet in *. simpl in *. destruct (isPlacingFacility m); simpl; lia.
Qed.

Lemma step_flags (m : Modes) (e : Event) :
  flagsSet m <= 1 -> flagsSet (fst (step m e)) <= 1.
Proof.
  intros Hm. destruct e; simpl; try (unfold flagsSet; simpl; lia).
  - unfold onCreated. case_bool_decide; [|assumption].
    revert Hm. unfold flagsSet.
    destruct m as [[] [] [] handler clicks polygons]; simpl; lia.
  - unfold onMapClick. etransitivity; [apply runClickListeners_flags|].
    exact Hm.
Qed.

Lemma run_flags (m : Modes) (es : list Event) :
  flagsSet m <= 1 -> flagsSet (fst (run m es)) <= 1.
Proof.
  revert m. induction es as [|e es IH]; intros m Hm; [assumption|].
  simpl. pose proof (step_flags m e Hm) as H1.
  destruct (step m e) as [m1 out1]. simpl in *.
  specialize (IH m1 H1). now destruct (run m1 es).
Qed.

(** C4: from any state, a start button calls nothing back and leaves
    exactly the flag of the requested mode set; whatever happens next,
    until another start, at most one creation is called back and it is
    one of the requested mode, so starting to draw a park never leads to
    a district creation; and from the idle state on, as across any single
    step, at most one of the three flags is set. *)
Theorem start_cancels_active_mode :
  (forall (m : Modes) (mode : Mode),
      snd (step m (start mode)) = []
      /\ forall mode', flag mode' (fst (step m (start mode))) = same_mode mode' mode)
  /\ (forall (m : Modes) (mode : Mode) (es : list Event),
        forallb (fun e => negb (isStart e)) es = true ->
        snd (run (fst (step m (start mode))) es) = []
        \/ exists c, snd (run (fst (step m (start mode))) es) = [c]
                     /\ creationMode c = mode)
  /\ (forall (m : Modes) (es : list Event) (g : Geometry number),
        forallb (fun e => negb (isStart e)) es = true ->
        ~ In (DistrictCreate g) (snd (run (startDrawingPark m) es)))
  /\ (forall es : list Event, flagsSet (fst (run idle es)) <= 1)
  /\ (forall (m : Modes) (e : Event),
        flagsSet m <= 1 -> flagsSet (fst (step m e)) <= 1).
Proof.
  split; [|split; [|split; [|split]]].
  - intros m mode. split; [now destruct mode | intros mode'; apply start_flags].
  - intros m mode es Hes. apply run_only; [assumption | apply start_only].
  - intros m es g Hes Hin.
    destruct (run_only DrawingPark (startDrawingPark m) es Hes
                (start_only m DrawingPark)) as [Hout|(c & Hout & Hc)];
      rewrite Hout in Hin; [contradiction|].
    destruct Hin as [->|[]]. discriminate.
  - intros es. apply run_flags. unfold flagsSet. simpl. lia.
  - apply step_flags.
Qed.

(** ** More on the filter state and the render passes *)

Lemma toggle_toggle `{Countable A} (s : gset A) (x : A) :
  toggle (toggle s x) x = s.
Proof.
  unfold toggle. destruct (has s x) eqn:Hx.
  - apply has_true in Hx.
    assert (Hout : has (s ∖ {[x]}) x = false).
    { apply has_false. rewrite elem_of_difference, elem_of_singleton.
      intros [_ Hne]. now apply Hne. }
    rewrite Hout. apply set_eq. intros y.
    rewrite elem_of_union, elem_of_difference, elem_of_singleton. split.
    + intros [[Hy _]| ->]; assumption.
    + intros Hy. destruct (decide (y = x)) as [->|Hne]; [now right | now left].
  - apply has_false in Hx.
    assert (Hin : has (s ∪ {[x]}) x = true).
    { apply has_true. rewrite elem_of_union, elem_of_singleton. now right. }
    rewrite Hin. apply set_eq. intros y.
    rewrite elem_of_difference, elem_of_union, elem_of_singleton. split.
    + intros [[Hy| ->] Hne]; [assumption | now contradiction Hne].
    + intros Hy. split; [now left|]. intros ->. now apply Hx.
Qed.

(** X1: a checkbox toggled twice leaves the filter state as it was, for
    a district, a park and a facility type alike. *)
Theorem toggle_twice_restores (f : Filters) (id : Z) (type : string) :
  togglePark id (togglePark id f) = f
  /\ toggleDistrict id (toggleDistrict id f) = f
  /\ toggleFacilityType type (toggleFacilityType type f) = f.
Proof.
  destruct f as [ds ps ts init].
  unfold togglePark, toggleDistrict, toggleFacilityType, set_selectedParks,
    set_selectedDistricts, set_selectedFacilityTypes. simpl.
  now rewrite !toggle_toggle.
Qed.

(** The tests of the three passes, as the source has them. *)
Definition districtDrawn (f : Filters) (district : District) : bool :=
  has (selectedDistricts f) (d_id district)
  && match d_geometry district with Some _ => true | None => false end.

Definition parkDrawn (f : Filters) (park : Park) : bool :=
  has (selectedParks f) (p_id park)
  && negb (truthy_num (districtId park)
           && negb (has_num (selectedDistricts f) (districtId park)))
  && match p_geometry park with Some _ => true | None => false end.

(** Each pass goes through its list in order and keeps the entities that
    pass its test. *)
Lemma loadDistricts_entities (st : Store) (f : Filters) (isAdmin placing : bool) :
  map dl_district (loadDistricts st f isAdmin placing)
  = List.filter (districtDrawn f) (districts st).
Proof.
  unfold loadDistricts, districtDrawn.
  induction (districts st) as [|d l IH]; [reflexivity|]. simpl.
  rewrite map_app, IH.
  destruct (has (selectedDistricts f) (d_id d)); simpl; [|reflexivity].
  now destruct (d_geometry d).
Qed.

Lemma loadParks_entities (st : Store) (f : Filters) (isAdmin placing : bool) :
  map pl_park (loadParks st f isAdmin placing)
  = List.filter (parkDrawn f) (parks st).
Proof.
  unfold loadParks, parkDrawn.
  induction (parks st) as [|p l IH]; [reflexivity|]. simpl.
  rewrite map_app, IH.
  destruct (has (selectedParks f) (p_id p)); simpl; [|reflexivity].
  destruct (truthy_num (districtId p)
            && negb (has_num (selectedDistricts f) (districtId p))); simpl;
    [reflexivity|].
  now destruct (p_geometry p).
Qed.

Lemma loadFacilities_entities (st : Store) (f : Filters) (isAdmin placing : bool) :
  map m_facility (loadFacilities st f isAdmin placing)
  = List.filter (facilityShown st f) (facilities st).
Proof.
  unfold loadFacilities.
  induction (facilities st) as [|x l IH]; [reflexivity|]. simpl.
  rewrite map_app, IH. now destruct (facilityShown st f x).
Qed.

Lemma parkDrawn_true (f : Filters) (p : Park) :
  parkDrawn f p = true <->
  p_id p ∈ selectedParks f
  /\ inSelectedDistrict (selectedDistricts f) p = true
  /\ p_geometry p <> None.
Proof.
  unfold parkDrawn. fold (inDeselectedDistrict (selectedDistricts f) p).
  rewrite inDeselectedDistrict_negb, negb_involutive, !andb_true_iff, has_true.
  destruct (p_geometry p); split.
  - intros [[H1 H2] _]. now repeat split.
  - intros (H1 & H2 & _). now repeat split.
  - intros [_ H]. discriminate.
  - intros (_ & _ & H). now contradiction H.
Qed.

Lemma loadParks_layer (st : Store) (f : Filters) (isAdmin placing : bool) (p : Park) :
  (exists layer, In layer (loadParks st f isAdmin placing) /\ pl_park layer = p)
  <-> In p (parks st) /\ parkDrawn f p = true.
Proof.
  rewrite <- filter_In, <- (loadParks_entities st f isAdmin placing), in_map_iff.
  split; intros (layer & H1 & H2); now exists layer.
Qed.

Lemma loadDistricts_layer (st : Store) (f : Filters) (isAdmin placing : bool)
    (d : District) :
  (exists layer, In layer (loadDistricts st f isAdmin placing)
                 /\ dl_district layer = d)
  <-> In d (districts st) /\ districtDrawn f d = true.
Proof.
  rewrite <- filter_In, <- (loadDistricts_entities st f isAdmin placing), in_map_iff.
  split; intros (layer & H1 & H2); now exists layer.
Qed.

(** ** The filter panel under the filters effect

    The effect of the filters reads the three sets, so after a handler of
    the panel has written one of them it runs again, before the next
    event; the passes then draw from the state it leaves.  What a click
    leaves behind is [filtersEffect st (handler f)]. *)

Lemma elem_of_addMissing `{Countable A} (xs : list A) (s : gset A) (y : A) :
  y ∈ addMissing xs s <-> y ∈ s \/ In y xs.
Proof.
  now rewrite addMissing_union, elem_of_union, elem_of_list_to_set, list_elem_of_In.
Qed.

Lemma addMissing_toggle `{Countable A} (xs : list A) (s : gset A) (x : A) :
  In x xs -> addMissing xs (toggle s x) = addMissing xs s.
Proof.
  intros Hx. apply set_eq. intros y. rewrite !elem_of_addMissing.
  unfold toggle. destruct (has s x) eqn:Hs.
  - rewrite elem_of_difference, elem_of_singleton. split.
    + intros [[Hy _]|Hy]; [now left | now right].
    + intros [Hy|Hy]; [|now right].
      destruct (decide (y = x)) as [->|Hne]; [now right | left; now split].
  - rewrite elem_of_union, elem_of_singleton. split.
    + intros [[Hy| ->]|Hy]; [now left | now right | now right].
    + intros [Hy|Hy]; [left; now left | now right].
Qed.

Lemma addMissing_within `{Countable A} (xs : list A) (s : gset A) :
  (forall y, y ∈ s -> In y xs) -> addMissing xs s = list_to_set xs.
Proof.
  intros Hs. apply set_eq. intros y.
  rewrite elem_of_addMissing, elem_of_list_to_set, list_elem_of_In. split.
  - intros [Hy|Hy]; [now apply Hs | assumption].
  - intros Hy. now right.
Qed.

Lemma filtersEffect_district (st : Store) (f : Filters) (d : District) :
  In d (districts st) -> d_id d ∈ selectedDistricts (filtersEffect st f).
Proof.
  intros Hd. unfold filtersEffect. destruct (filtersInitialized f); simpl.
  - apply elem_of_addMissing. right. now apply in_map.
  - apply elem_of_list_to_set, list_elem_of_In. now apply in_map.
Qed.

Lemma filtersEffect_park (st : Store) (f : Filters) (p : Park) :
  In p (parks st) -> p_id p ∈ selectedParks (filtersEffect st f).
Proof.
  intros Hp. unfold filtersEffect. destruct (filtersInitialized f); simpl.
  - apply elem_of_addMissing. right. now apply in_map.
  - apply elem_of_list_to_set, list_elem_of_In. now apply in_map.
Qed.

Lemma filtersEffect_type (st : Store) (f : Filters) (type : string) :
  In type FACILITY_TYPE_KEYS -> type ∈ selectedFacilityTypes (filtersEffect st f).
Proof.
  intros Ht. unfold filtersEffect. destruct (filtersInitialized f); simpl.
  - apply elem_of_addMissing. now right.
  - now apply elem_of_list_to_set, list_elem_of_In.
Qed.

(** The district of the park, when it has one, is in the store. *)
Definition districtListed (st : Store) (p : Park) : Prop :=
  districtId p = None
  \/ exists d, In d (districts st) /\ districtId p = Some (d_id d).

Lemma districtListed_selected (st : Store) (f : Filters) (p : Park) :
  districtListed st p ->
  inSelectedDistrict (selectedDistricts (filtersEffect st f)) p = true.
Proof.
  intros [Hnone|(d & Hd & Hid)]; apply inSelectedDistrict_true.
  - now left.
  - right. right. exists (d_id d). split; [assumption|].
    now apply filtersEffect_district.
Qed.

(** After the effect has run, the passes draw every entity of the store
    whose park and district, when it has them, are in the store. *)
Lemma effect_draws_district (st : Store) (f : Filters) (isAdmin placing : bool)
    (d : District) :
  In d (districts st) -> d_geometry d <> None ->
  exists layer, In layer (loadDistricts st (filtersEffect st f) isAdmin placing)
                /\ dl_district layer = d.
Proof.
  intros Hd Hg. apply loadDistricts_layer. split; [assumption|].
  unfold districtDrawn. apply andb_true_iff. split.
  - apply has_true. now apply filtersEffect_district.
  - now destruct (d_geometry d).
Qed.

Lemma effect_draws_park (st : Store) (f : Filters) (isAdmin placing : bool)
    (p : Park) :
  In p (parks st) -> p_geometry p <> None -> districtListed st p ->
  exists layer, In layer (loadParks st (filtersEffect st f) isAdmin placing)
                /\ pl_park layer = p.
Proof.
  intros Hp Hg Hd. apply loadParks_layer. split; [assumption|].
  apply parkDrawn_true. split; [now apply filtersEffect_park|].
  split; [now apply districtListed_selected | assumption].
Qed.

Lemma effect_draws_facility (st : Store) (f : Filters) (isAdmin placing : bool)
    (fac : Facility) :
  In fac (facilities st) ->
  In (f_type fac) FACILITY_TYPE_KEYS ->
  (forall k, parkId fac = Some k -> k <> 0%Z -> In k (map p_id (parks st))) ->
  (forall p, In p (parks st) -> parkId fac = Some (p_id p) -> districtListed st p) ->
  exists marker, In marker (loadFacilities st (filtersEffect st f) isAdmin placing)
                 /\ m_facility marker = fac.
Proof.
  intros Hfac Ht Hpark Hdistrict. apply loadFacilities_marker.
  split; [assumption|]. apply facilityShown_true. split; [|split].
  - now apply filtersEffect_type.
  - intros k Hk Hz. destruct (proj1 (in_map_iff _ _ _) (Hpark k Hk Hz))
      as (p & <- & Hp).
    now apply filtersEffect_park.
  - intros p Hp. apply parkOf_Some in Hp as [Hp Hid].
    apply inSelectedDistrict_true, districtListed_selected. now apply Hdistrict.
Qed.

(** X2: the checkbox of a park of the store has no lasting effect.  The
    filters effect, which runs again after the click, puts the id back:
    the filter state is the one the effect alone would leave, and the park
    is still drawn when it has a geometry and its district, if it has one,
    is in the store. *)
Theorem park_checkbox_undone (st : Store) (f : Filters)
    (isAdmin placing : bool) (id : Z) :
  In id (map p_id (parks st)) ->
  filtersEffect st (togglePark id f) = filtersEffect st f
  /\ (forall p, In p (parks st) -> p_id p = id -> p_geometry p <> None ->
        districtListed st p ->
        exists layer,
          In layer (loadParks st (filtersEffect st (togglePark id f)) isAdmin placing)
          /\ pl_park layer = p).
Proof.
  intros Hid. split.
  - unfold filtersEffect, togglePark, set_selectedParks. simpl.
    destruct (filtersInitialized f); simpl; [|reflexivity].
    now rewrite addMissing_toggle.
  - intros p Hp _ Hg Hd. now apply effect_draws_park.
Qed.

(** X3: the checkbox of a district of the store has no lasting effect
    either.  After the click and the filters effect the filter state is
    the one the effect alone would leave; every district of the store
    that has a geometry is drawn, the clicked one included, and so is
    every park of that district that has a geometry. *)
Theorem district_checkbox_undone (st : Store) (f : Filters)
    (isAdmin placing : bool) (id : Z) :
  In id (map d_id (districts st)) ->
  filtersEffect st (toggleDistrict id f) = filtersEffect st f
  /\ (forall d, In d (districts st) -> d_geometry d <> None ->
        exists layer,
          In layer (loadDistricts st (filtersEffect st (toggleDistrict id f))
                      isAdmin placing)
          /\ dl_district layer = d)
  /\ (forall p, In p (parks st) -> districtId p = Some id -> p_geometry p <> None ->
        exists layer,
          In layer (loadParks st (filtersEffect st (toggleDistrict id f))
                      isAdmin placing)
          /\ pl_park layer = p).
Proof.
  intros Hid. split; [|split].
  - unfold filtersEffect, toggleDistrict, set_selectedDistricts. simpl.
    destruct (filtersInitialized f); simpl; [|reflexivity].
    now rewrite addMissing_toggle.
  - intros d Hd Hg. now apply effect_draws_district.
  - intros p Hp Hdistrict Hg. apply effect_draws_park; try assumption.
    right. apply in_map_iff in Hid as (d & <- & Hd). now exists d.
Qed.

Lemma union_absorb `{Countable A} (s t : gset A) : (s ∪ t) ∪ t = s ∪ t.
Proof.
  apply set_eq. intros y. rewrite !elem_of_union. split.
  - intros [[Hy|Hy]|Hy]; [now left | now right | now right].
  - intros [Hy|Hy]; [left; now left | now right].
Qed.

Lemma addMissing_twice `{Countable A} (xs : list A) (s : gset A) :
  addMissing xs (addMissing xs s) = addMissing xs s.
Proof. rewrite !addMissing_union. apply union_absorb. Qed.

Lemma addMissing_of_list `{Countable A} (xs : list A) :
  addMissing xs (list_to_set xs) = list_to_set xs.
Proof.
  rewrite addMissing_union. apply set_eq. intros y. rewrite elem_of_union.
  split; [now intros [Hy|Hy] | now left].
Qed.

(** X4: whenever the effect of the filters runs, every district and
    every park of the store and every facility type is selected
    afterwards, also those that had been deselected; once the filters are
    initialised it deselects nothing; and running it again on the same
    store changes nothing more. *)
Theorem filtersEffect_selects_store (st : Store) (f : Filters) :
  (forall d, In d (districts st) -> d_id d ∈ selectedDistricts (filtersEffect st f))
  /\ (forall p, In p (parks st) -> p_id p ∈ selectedParks (filtersEffect st f))
  /\ (forall type, In type FACILITY_TYPE_KEYS ->
        type ∈ selectedFacilityTypes (filtersEffect st f))
  /\ filtersInitialized (filtersEffect st f) = true
  /\ (filtersInitialized f = true ->
      (forall x, x ∈ selectedDistricts f -> x ∈ selectedDistricts (filtersEffect st f))
      /\ (forall x, x ∈ selectedParks f -> x ∈ selectedParks (filtersEffect st f))
      /\ (forall x, x ∈ selectedFacilityTypes f ->
            x ∈ selectedFacilityTypes (filtersEffect st f)))
  /\ filtersEffect st (filtersEffect st f) = filtersEffect st f.
Proof.
  assert (Hinit' : filtersInitialized (filtersEffect st f) = true).
  { unfold filtersEffect. now destruct (filtersInitialized f) eqn:Hinit. }
  split; [|split; [|split; [|split; [exact Hinit'|split]]]].
  - intros d Hd. unfold filtersEffect. destruct (filtersInitialized f); simpl.
    + apply elem_of_addMissing. right. now apply in_map.
    + apply elem_of_list_to_set, list_elem_of_In. now apply in_map.
  - intros p Hp. unfold filtersEffect. destruct (filtersInitialized f); simpl.
    + apply elem_of_addMissing. right. now apply in_map.
    + apply elem_of_list_to_set, list_elem_of_In. now apply in_map.
  - intros type Ht. unfold filtersEffect. destruct (filtersInitialized f); simpl.
    + apply elem_of_addMissing. now right.
    + now apply elem_of_list_to_set, list_elem_of_In.
  - intros Hinit. unfold filtersEffect. rewrite Hinit. simpl.
    split; [|split]; intros x Hx; apply elem_of_addMissing; now left.
  - unfold filtersEffect at 1. rewrite Hinit'. simpl.
    unfold filtersEffect. destruct (filtersInitialized f) eqn:Hinit; simpl.
    + now rewrite !addMissing_twice.
    + now rewrite !addMissing_of_list.
Qed.

(** X5: the district pass draws a layer for a district exactly when the
    district is in the store, its id is selected and it has a geometry;
    deselect-all-districts followed by the filters effect ends in the
    filter state of select-all-districts followed by it, so every district
    of the store that has a geometry is drawn then; after
    select-all-districts the pass draws every district of the store that
    has a geometry. *)
Theorem district_layers (st : Store) (f : Filters) (isAdmin placing : bool) :
  (forall d,
      (exists layer, In layer (loadDistricts st f isAdmin placing)
                     /\ dl_district layer = d)
      <-> In d (districts st) /\ d_id d ∈ selectedDistricts f
          /\ d_geometry d <> None)
  /\ filtersEffect st (deselectAllDistricts f)
     = filtersEffect st (selectAllDistricts st f)
  /\ (forall d, In d (districts st) -> d_geometry d <> None ->
        exists layer,
          In layer (loadDistricts st (filtersEffect st (deselectAllDistricts f))
                      isAdmin placing)
          /\ dl_district layer = d)
  /\ (forall d, In d (districts st) -> d_geometry d <> None ->
        exists layer,
          In layer (loadDistricts st (selectAllDistricts st f) isAdmin placing)
          /\ dl_district layer = d).
Proof.
  assert (Hdrawn : forall g d, districtDrawn g d = true <->
            d_id d ∈ selectedDistricts g /\ d_geometry d <> None).
  { intros g d. unfold districtDrawn. rewrite andb_true_iff, has_true.
    destruct (d_geometry d); split.
    - intros [H _]. now split.
    - intros [H _]. now split.
    - intros [_ H]. discriminate.
    - intros [_ H]. now contradiction H. }
  split; [|split; [|split]].
  - intros d. now rewrite loadDistricts_layer, Hdrawn.
  - unfold filtersEffect, deselectAllDistricts, selectAllDistricts,
      set_selectedDistricts. simpl.
    destruct (filtersInitialized f); simpl; [|reflexivity]. f_equal.
    rewrite addMissing_of_list. apply addMissing_within.
    intros y Hy. now apply not_elem_of_empty in Hy.
  - intros d Hd Hg. now apply effect_draws_district.
  - intros d Hd Hg. apply loadDistricts_layer. split; [assumption|].
    apply Hdrawn. split; [|assumption]. simpl.
    apply elem_of_list_to_set, list_elem_of_In. now apply in_map.
Qed.

(** X6: while a facility is being placed no layer and no marker has a
    popup, and otherwise each has one; which entities are drawn, and in
    which order, depends neither on that nor on the admin mode. *)
Theorem popups_suppressed_while_placing (st : Store) (f : Filters)
    (isAdmin placing : bool) :
  (forall layer, In layer (loadDistricts st f isAdmin placing) ->
     dl_popup layer
     = if placing then None else Some (districtPopup st isAdmin (dl_district layer)))
  /\ (forall layer, In layer (loadParks st f isAdmin placing) ->
        pl_popup layer
        = if placing then None else Some (parkPopup st isAdmin (pl_park layer)))
  /\ (forall marker, In marker (loadFacilities st f isAdmin placing) ->
        m_popup marker
        = if placing then None
          else Some (facilityPopup st isAdmin (m_facility marker)))
  /\ (forall isAdmin' placing',
        map dl_district (loadDistricts st f isAdmin' placing')
        = map dl_district (loadDistricts st f isAdmin placing)
        /\ map pl_park (loadParks st f isAdmin' placing')
           = map pl_park (loadParks st f isAdmin placing)
        /\ map m_facility (loadFacilities st f isAdmin' placing')
           = map m_facility (loadFacilities st f isAdmin placing)).
Proof.
  split; [|split; [|split]].
  - intros layer Hin. unfold loadDistricts in Hin.
    apply in_flat_map in Hin as (d & _ & Hin).
    destruct (has (selectedDistricts f) (d_id d)); simpl in Hin; [|contradiction].
    destruct (d_geometry d); [|contradiction].
    destruct Hin as [<-|[]]. now destruct placing.
  - intros layer Hin. unfold loadParks in Hin.
    apply in_flat_map in Hin as (p & _ & Hin).
    destruct (has (selectedParks f) (p_id p)); simpl in Hin; [|contradiction].
    destruct (truthy_num (districtId p)
              && negb (has_num (selectedDistricts f) (districtId p)));
      simpl in Hin; [contradiction|].
    destruct (p_geometry p); [|contradiction].
    destruct Hin as [<-|[]]. now destruct placing.
  - intros marker Hin. unfold loadFacilities in Hin.
    apply in_flat_map in Hin as (x & _ & Hin).
    destruct (facilityShown st f x); [|contradiction].
    destruct Hin as [<-|[]]. now destruct placing.
  - intros isAdmin' placing'.
    now rewrite !loadDistricts_entities, !loadParks_entities,
      !loadFacilities_entities.
Qed.

(** Splits the hypothesis on the optional parts of a popup. *)
Ltac popup_cases H :=
  repeat match type of H with
         | context [match ?x with _ => _ end] => destruct x
         end.

(** X7: a popup has the edit and delete buttons exactly in admin mode,
    and they carry the id of the entity of the popup. *)
Theorem admin_buttons_only_for_admin (st : Store) (isAdmin : bool) (id : Z) :
  (forall district,
      In (AdminButtons id) (districtPopup st isAdmin district)
      <-> isAdmin = true /\ id = d_id district)
  /\ (forall park,
        In (AdminButtons id) (parkPopup st isAdmin park)
        <-> isAdmin = true /\ id = p_id park)
  /\ (forall facility,
        In (AdminButtons id) (facilityPopup st isAdmin facility)
        <-> isAdmin = true /\ id = f_id facility).
Proof.
  split; [|split].
  - intros district. unfold districtPopup, part_if. rewrite !in_app_iff. split.
    + intros [H|[H|[H|H]]].
      * not_among H.
      * popup_cases H; not_among H.
      * destruct isAdmin; [|contradiction]. destruct H as [[= <-]|[]]. now split.
      * not_among H.
    + intros [-> ->]. do 2 right. left. now left.
  - intros park. unfold parkPopup, field_if, part_if. rewrite !in_app_iff. split.
    + intros [H|[H|[H|[H|[H|[H|[H|H]]]]]]].
      * not_among H.
      * popup_cases H; not_among H.
      * popup_cases H; not_among H.
      * popup_cases H; not_among H.
      * popup_cases H; not_among H.
      * not_among H.
      * destruct isAdmin; [|contradiction]. destruct H as [[= <-]|[]]. now split.
      * not_among H.
    + intros [-> ->]. do 6 right. left. now left.
  - intros facility. unfold facilityPopup, field_if, part_if. rewrite !in_app_iff.
    split.
    + intros [H|[H|[H|[H|[H|[H|[H|[H|H]]]]]]]].
      * popup_cases H; not_among H.
      * not_among H.
      * popup_cases H; not_among H.
      * popup_cases H; not_among H.
      * popup_cases H; not_among H.
      * popup_cases H; not_among H.
      * popup_cases H; not_among H.
      * destruct isAdmin; [|contradiction]. destruct H as [[= <-]|[]]. now split.
      * not_among H.
    + intros [-> ->]. do 7 right. left. now left.
Qed.

(** Counting the elements of a list by a key, over keys without
    repetition, counts the elements whose key is one of them. *)
Lemma count_by_keys {A : Type} (key : A -> string) (keys : list string) (l : list A) :
  NoDup keys ->
  list_sum (map (fun k => length (List.filter (fun x => bool_decide (key x = k)) l))
                keys)
  = length (List.filter (fun x => bool_decide (key x ∈ keys)) l).
Proof.
  intros Hkeys. induction Hkeys as [|k keys Hk Hkeys IH].
  - induction l as [|x l IHl]; [reflexivity|]. cbn [List.filter].
    rewrite bool_decide_eq_false_2; [assumption | apply not_elem_of_nil].
  - change (length (List.filter (fun x => bool_decide (key x = k)) l)
            + list_sum
                (map (fun k => length (List.filter
                                         (fun x => bool_decide (key x = k)) l))
                     keys)
            = length (List.filter (fun x => bool_decide (key x ∈ k :: keys)) l)).
    rewrite IH. clear IH.
    induction l as [|x l IHl]; [reflexivity|]. cbn [List.filter].
    destruct (decide (key x = k)) as [Heq|Hne].
    + rewrite (bool_decide_eq_true_2 _ Heq).
      rewrite (bool_decide_eq_false_2 (key x ∈ keys));
        [|rewrite Heq; exact Hk].
      rewrite (bool_decide_eq_true_2 (key x ∈ k :: keys));
        [|rewrite Heq; apply list_elem_of_here].
      cbn [length]. now rewrite <- IHl.
    + rewrite (bool_decide_eq_false_2 _ Hne).
      destruct (decide (key x ∈ keys)) as [Hin|Hout].
      * rewrite (bool_decide_eq_true_2 _ Hin).
        rewrite (bool_decide_eq_true_2 (key x ∈ k :: keys));
          [|now apply list_elem_of_further].
        cbn [length]. rewrite <- IHl. lia.
      * rewrite (bool_decide_eq_false_2 _ Hout).
        rewrite (bool_decide_eq_false_2 (key x ∈ k :: keys)); [exact IHl|].
        intros Hin. apply elem_of_cons in Hin as [Heq|Hin];
          [now apply Hne | now apply Hout].
Qed.

Lemma facilityCountKeys_NoDup : NoDup facilityCountKeys.
Proof.
  unfold facilityCountKeys.
  repeat (apply NoDup_cons; split;
          [intros H; repeat (apply elem_of_cons in H as [H|H]; [discriminate|]);
           now apply not_elem_of_nil in H|]).
  apply NoDup_nil. exact I.
Qed.

(** The facilities of the store whose parkId is the id of the park. *)
Definition facilitiesOf (st : Store) (park : Park) : list Facility :=
  List.filter (fun f => bool_decide (parkId f = Some (p_id park))) (facilities st).

Lemma filter_all {A : Type} (test : A -> bool) (l : list A) :
  (forall x, In x l -> test x = true) -> List.filter test l = l.
Proof.
  induction l as [|x l IH]; intros H; [reflexivity|]. simpl.
  rewrite (H x (or_introl eq_refl)). f_equal. apply IH.
  intros y Hy. apply H. now right.
Qed.

(** X8: when the facilities of a park have one of the six types of the
    schema's FacilityType enum, the popup of the park lists, for each of
    the six types in their fixed order, how many facilities of the store
    of that type have the park's id as parkId, and the six counts add up
    to the number of the park's facilities. *)
Theorem park_popup_counts (st : Store) (isAdmin : bool) (park : Park)
    (items : list (option string * nat))
    (Htypes : forall f, In f (facilitiesOf st park) ->
                        f_type f ∈ facilityCountKeys) :
  (In (CountItems items) (parkPopup st isAdmin park) <->
   items = map (fun type =>
                  (FACILITY_TYPES type,
                   length (List.filter (fun f => bool_decide (f_type f = type))
                                       (facilitiesOf st park))))
               facilityCountKeys)
  /\ (In (CountItems items) (parkPopup st isAdmin park) ->
      list_sum (map snd items) = length (facilitiesOf st park)).
Proof.
  assert (Hiff : In (CountItems items) (parkPopup st isAdmin park) <->
    items = map (fun type =>
                   (FACILITY_TYPES type,
                    length (List.filter (fun f => bool_decide (f_type f = type))
                                        (facilitiesOf st park))))
                facilityCountKeys).
  { unfold parkPopup, field_if, part_if. fold (facilitiesOf st park).
    rewrite !in_app_iff. split.
    - intros [H|[H|[H|[H|[H|[H|[H|H]]]]]]].
      + not_among H.
      + popup_cases H; not_among H.
      + popup_cases H; not_among H.
      + popup_cases H; not_among H.
      + popup_cases H; not_among H.
      + destruct H as [[= <-]|[]]. reflexivity.
      + popup_cases H; not_among H.
      + not_among H.
    - intros ->. do 5 right. left. now left. }
  assert (Hsum : In (CountItems items) (parkPopup st isAdmin park) ->
    list_sum (map snd items)
    = length (List.filter (fun f => bool_decide (f_type f ∈ facilityCountKeys))
                          (facilitiesOf st park))).
  { intros Hin. apply Hiff in Hin as ->. rewrite map_map. simpl.
    apply (count_by_keys f_type facilityCountKeys (facilitiesOf st park)).
    exact facilityCountKeys_NoDup. }
  split; [exact Hiff|].
  intros Hin. rewrite (Hsum Hin). f_equal. apply filter_all.
  intros f Hf. apply bool_decide_eq_true_2. now apply Htypes.
Qed.

(** X9: after select-all-parks the park pass draws exactly the parks
    that the filter panel lists and that have a geometry.
    Deselect-all-parks followed by the filters effect ends in the filter
    state of select-all-parks followed by it, with every park of the
    store selected, so the park pass then draws the listed parks that
    have a geometry: the button takes no park off the map. *)
Theorem select_all_parks_draws_listed (st : Store) (f : Filters)
    (isAdmin placing : bool) :
  (forall p,
      (exists layer, In layer (loadParks st (selectAllParks st f) isAdmin placing)
                     /\ pl_park layer = p)
      <-> In p (filteredParks st f) /\ p_geometry p <> None)
  /\ filtersEffect st (deselectAllParks st f)
     = filtersEffect st (selectAllParks st f)
  /\ (forall p,
        (exists layer,
            In layer (loadParks st (filtersEffect st (deselectAllParks st f))
                        isAdmin placing)
            /\ pl_park layer = p)
        <-> In p (filteredParks st (filtersEffect st f)) /\ p_geometry p <> None).
Proof.
  split; [|split].
  - intros p. rewrite loadParks_layer, parkDrawn_true. unfold filteredParks.
    rewrite filter_In. simpl. rewrite elem_of_filtered_ids. split.
    + intros (Hp & _ & Hd & Hg). now repeat split.
    + intros ((Hp & Hd) & Hg). repeat split; try assumption. now exists p.
  - unfold filtersEffect, deselectAllParks, selectAllParks, set_selectedParks.
    simpl. destruct (filtersInitialized f); simpl; [|reflexivity].
    assert (Hin : forall test y,
              y ∈ (list_to_set (map p_id (List.filter test (parks st))) : gset Z) ->
              In y (map p_id (parks st))).
    { intros test y Hy. apply elem_of_filtered_ids in Hy as (p & Hp & _ & <-).
      now apply in_map. }
    f_equal. now rewrite !addMissing_within by apply Hin.
  - intros p. rewrite loadParks_layer, parkDrawn_true. unfold filteredParks.
    rewrite filter_In.
    assert (Hsame : selectedDistricts (filtersEffect st (deselectAllParks st f))
                    = selectedDistricts (filtersEffect st f)).
    { unfold filtersEffect, deselectAllParks, set_selectedParks. simpl.
      now destruct (filtersInitialized f). }
    rewrite Hsame. split.
    + intros (Hp & _ & Hd & Hg). now repeat split.
    + intros ((Hp & Hd) & Hg). repeat split; try assumption.
      now apply filtersEffect_park.
Qed.

(** ** More on the interaction modes *)

(** X10: a start followed by the completion of its gesture calls back
    exactly once, with what the gesture captured, and leaves no flag set,
    no handler and no click listener; only a park polygon is added to the
    drawn items; a second completion calls nothing back. *)
Theorem mode_completion (m : Modes) (g g' : Geometry number) (lat lng lat' lng' : number) :
  onCreated "polygon" g (startDrawingDistrict m)
  = (mkModes false false false None 0 (drawnPolygons m), [DistrictCreate g])
  /\ onCreated "polygon" g (startDrawingPark m)
     = (mkModes false false false None 0 (drawnPolygons m ++ [g]), [ParkCreate g])
  /\ onMapClick lat lng (startPlacingFacility m)
     = (mkModes false false false None 0 (drawnPolygons m), [FacilityCreate lat lng])
  /\ snd (run (startDrawingDistrict m)
              [Created "polygon" g; Created "polygon" g'; MapClick lat lng])
     = [DistrictCreate g]
  /\ snd (run (startDrawingPark m)
              [Created "polygon" g; Created "polygon" g'; MapClick lat lng])
     = [ParkCreate g]
  /\ snd (run (startPlacingFacility m)
              [MapClick lat lng; MapClick lat' lng'; Created "polygon" g])
     = [FacilityCreate lat lng].
Proof. repeat split. Qed.

Lemma run_stays_quiet (m : Modes) (es : list Event) :
  forallb (fun e => negb (isStart e)) es = true -> quiet m ->
  quiet (fst (run m es)).
Proof.
  revert m. induction es as [|e es IH]; intros m Hes Hq; [assumption|].
  simpl in Hes. apply andb_true_iff in Hes as [He Hes]. apply negb_true_iff in He.
  destruct (step_quiet m e He Hq) as [Hq' _]. simpl.
  destruct (step m e) as [m1 out1]. simpl in *.
  specialize (IH m1 Hes Hq'). now destruct (run m1 es).
Qed.

(** X11: after the cancel button, from any state, nothing is called back
    and no flag is set, whatever polygons are completed and wherever the
    map is clicked, until a start button is pressed; the polygons drawn
    so far stay. *)
Theorem cancel_silences (m : Modes) (es : list Event) :
  forallb (fun e => negb (isStart e)) es = true ->
  snd (run (cancelAllModes m) es) = []
  /\ flagsSet (fst (run (cancelAllModes m) es)) = 0
  /\ clickListeners (fst (run (cancelAllModes m) es)) = 0
  /\ drawnPolygons (cancelAllModes m) = drawnPolygons m.
Proof.
  intros Hes.
  assert (Hq : quiet (cancelAllModes m)) by now repeat split.
  split; [now apply run_quiet|].
  destruct (run_stays_quiet _ es Hes Hq) as (Hd & Hp & Hf & Hc).
  unfold flagsSet. rewrite Hd, Hp, Hf. now repeat split.
Qed.

(** What the component holds goes with its flags: a click listener
    exactly while a facility is being placed, an enabled draw handler
    exactly while a district or a park is being drawn, and at most one
    flag. *)
Definition consistent (m : Modes) : Prop :=
  flagsSet m <= 1
  /\ clickListeners m = Nat.b2n (isPlacingFacility m)
  /\ activeDrawHandler m
     = if isDrawingDistrict m || isDrawingPark m
       then Some (mkDrawHandler true) else None.

Lemma step_consistent (m : Modes) (e : Event) :
  consistent m -> consistent (fst (step m e)).
Proof.
  destruct m as [d p f h c polygons]. unfold consistent, flagsSet. simpl.
  intros (Hflags & -> & ->). destruct e; simpl; try (repeat split; lia).
  - unfold onCreated. simpl. case_bool_decide; [|now repeat split].
    destruct d, p, f; simpl in *; try (exfalso; lia); repeat split; lia.
  - unfold onMapClick. simpl.
    destruct d, p, f; simpl in *; try (exfalso; lia); repeat split; lia.
Qed.

Lemma run_consistent (m : Modes) (es : list Event) :
  consistent m -> consistent (fst (run m es)).
Proof.
  revert m. induction es as [|e es IH]; intros m Hm; [assumption|].
  simpl. pose proof (step_consistent m e Hm) as H1.
  destruct (step m e) as [m1 out1]. simpl in *.
  specialize (IH m1 H1). now destruct (run m1 es).
Qed.

(** X12: in every state the component reaches from idle, a click listener
    is attached exactly while a facility is being placed and an enabled
    draw handler is held exactly while a district or a park is being
    drawn; so a click on the map calls back one facility creation while
    placing and nothing otherwise. *)
Theorem modes_hold_what_flags_say (es : list Event) (lat lng : number) :
  clickListeners (fst (run idle es)) = Nat.b2n (isPlacingFacility (fst (run idle es)))
  /\ activeDrawHandler (fst (run idle es))
     = (if isDrawingDistrict (fst (run idle es)) || isDrawingPark (fst (run idle es))
        then Some (mkDrawHandler true) else None)
  /\ snd (step (fst (run idle es)) (MapClick lat lng))
     = (if isPlacingFacility (fst (run idle es))
        then [FacilityCreate lat lng] else []).
Proof.
  assert (Hidle : consistent idle).
  { unfold consistent, flagsSet. simpl. repeat split. lia. }
  destruct (run_consistent idle es Hidle) as (_ & Hc & Hh).
  split; [exact Hc|]. split; [exact Hh|].
  simpl. unfold onMapClick. rewrite Hc.
  now destruct (isPlacingFacility (fst (run idle es))).
Qed.

(** X25: the controls of the facility types have no lasting effect.  The
    checkbox of a key of FACILITY_TYPES followed by the filters effect
    leaves the filter state that the effect alone would leave;
    deselect-all-facility-types followed by the effect ends in the state
    of select-all-facility-types followed by it; and after
    deselect-all-facility-types and the effect a facility of the store
    still has its marker when its type is a key of FACILITY_TYPES and its
    park, if it has one, is in the store with a district, if any, that is
    in the store. *)
Theorem facility_type_filter (st : Store) (f : Filters) (isAdmin placing : bool) :
  (forall type, In type FACILITY_TYPE_KEYS ->
     filtersEffect st (toggleFacilityType type f) = filtersEffect st f)
  /\ filtersEffect st (deselectAllFacilityTypes f)
     = filtersEffect st (selectAllFacilityTypes f)
  /\ (forall fac,
        In fac (facilities st) ->
        In (f_type fac) FACILITY_TYPE_KEYS ->
        (forall k, parkId fac = Some k -> k <> 0%Z -> In k (map p_id (parks st))) ->
        (forall p, In p (parks st) -> parkId fac = Some (p_id p) ->
                   districtListed st p) ->
        exists marker,
          In marker (loadFacilities st (filtersEffect st (deselectAllFacilityTypes f))
                       isAdmin placing)
          /\ m_facility marker = fac).
Proof.
  split; [|split].
  - intros type Ht.
    unfold filtersEffect, toggleFacilityType, set_selectedFacilityTypes. simpl.
    destruct (filtersInitialized f); simpl; [|reflexivity].
    now rewrite addMissing_toggle.
  - unfold filtersEffect, deselectAllFacilityTypes, selectAllFacilityTypes,
      set_selectedFacilityTypes. simpl.
    destruct (filtersInitialized f); simpl; [|reflexivity]. f_equal.
    rewrite addMissing_of_list. apply addMissing_within.
    intros y Hy. now apply not_elem_of_empty in Hy.
  - intros fac Hfac Ht Hpark Hdistrict. now apply effect_draws_facility.
Qed.

End Component.
End Map.

(** ** FacilityForm.svelte *)

Module FacilityForm.
Section Form.
Variable number : Type.
(** The [File] picked in the form. *)
Variable File : Type.
(** [turf.polygon(coordinates)] followed by
    [turf.booleanPointInPolygon(point, polygon)], for the point
    [[longitude, latitude]]: [None] when either throws. *)
Variable booleanPointInPolygon :
  number * number -> list (list (list number)) -> option bool.
(** [parseInt(s)], with [NaN] as [None]. *)
Variable parseInt : string -> option Z.

Local Abbreviation Park := (Park number).
Local Abbreviation Facility := (Facility number).

Record Props := mkProps {
  prop_latitude : number;
  prop_longitude : number;
  prop_parks : list Park;
  prop_facility : option Facility
}.

(** The [$state] of the form. *)
Record Form := mkForm {
  name : string;
  type : string;
  description : string;
  form_contractAction : string;
  form_contractWith : string;
  form_contractTerm : string;
  photoFile : option File;
  photoUrl : string;
  loading : bool;
  error : string;
  form_parkId : string
}.

Definition isEditMode (props : Props) : bool :=
  match prop_facility props with
  | Some _ => true
  | None => false
  end.

(** The test of the loop of [detectedPark]: the park has a geometry and
    the point-in-polygon test returns [true] without throwing. *)
Definition pointInPark (props : Props) (park : Park) : bool :=
  match p_geometry park with
  | Some geometry =>
      match booleanPointInPolygon (prop_longitude props, prop_latitude props)
                                  (coordinates geometry) with
      | Some inside => inside
      | None => false
      end
  | None => false
  end.

(** Auto-detect which park this facility belongs to: the first park of
    the list that passes the test. *)
Definition detectedPark (props : Props) : option Park :=
  find (pointInPark props) (prop_parks props).

(** The [$effect] that initialises [parkId], applied to its current
    value; [String(n)] of an integer is its decimal writing. *)
Definition parkIdEffect (props : Props) (current : string) : string :=
  match prop_facility props with
  | Some facility =>
      (* In edit mode, use the facility's parkId *)
      match parkId facility with
      | Some k => if truthy_num (Some k) then pretty k else current
      | None => current
      end
  | None =>
      (* In create mode, auto-select detected park if no park is manually
         selected *)
      match detectedPark props with
      | Some park => if negb (truthy_str current) then pretty (p_id park) else current
      | None => current
      end
  end.

(** [s || null] *)
Definition or_null (s : string) : option string :=
  if truthy_str s then Some s else None.

(** The JSON body of the request. *)
Record Body := mkBody {
  body_name : string;
  body_type : string;
  body_latitude : number;
  body_longitude : number;
  body_description : option string;
  body_photo : option string;
  body_contractAction : option string;
  body_contractWith : option string;
  body_contractTerm : option string;
  body_parkId : option Z
}.

Inductive Request :=
| UploadPhoto (file : File)
| SaveFacility (method url : string) (body : Body).

(** What the server answers to the upload and to the save. *)
Inductive UploadResult :=
| Uploaded (url : string)
| UploadFailed.

Inductive SaveResult :=
| Saved (updatedFacility : Facility)
| Refused (error : option string)
| NetworkError.

(** The form after [handleSubmit], the requests it has sent, in order,
    and the facility passed to [onSubmit], if any. *)
Record Outcome := mkOutcome {
  form_after : Form;
  requests : list Request;
  submitted : option Facility
}.

Definition set_error (e : string) (form : Form) : Form :=
  mkForm (name form) (type form) (description form) (form_contractAction form)
         (form_contractWith form) (form_contractTerm form) (photoFile form)
         (photoUrl form) (loading form) e (form_parkId form).

Definition set_loading (b : bool) (form : Form) : Form :=
  mkForm (name form) (type form) (description form) (form_contractAction form)
         (form_contractWith form) (form_contractTerm form) (photoFile form)
         (photoUrl form) b (error form) (form_parkId form).

Definition set_photoUrl (url : string) (form : Form) : Form :=
  mkForm (name form) (type form) (description form) (form_contractAction form)
         (form_contractWith form) (form_contractTerm form) (photoFile form)
         url (loading form) (error form) (form_parkId form).

Definition set_parkId (id : string) (form : Form) : Form :=
  mkForm (name form) (type form) (description form) (form_contractAction form)
         (form_contractWith form) (form_contractTerm form) (photoFile form)
         (photoUrl form) (loading form) (error form) id.

Definition saveRequest (props : Props) (form : Form) : Request :=
  let url :=
    match prop_facility props with
    | Some facility => "/api/facilities/" +:+ pretty (f_id facility)
    | None => "/api/facilities"
    end in
  let method := if isEditMode props then "PUT" else "POST" in
  SaveFacility method url
    (mkBody (name form) (type form) (prop_latitude props) (prop_longitude props)
            (or_null (description form)) (or_null (photoUrl form))
            (or_null (form_contractAction form)) (or_null (form_contractWith form))
            (or_null (form_contractTerm form)) (parseInt (form_parkId form))).

(** The part of [handleSubmit] from the save request on. *)
Definition save (props : Props) (form : Form) (sent : list Request)
    (answer : SaveResult) : Outcome :=
  let sent := sent ++ [saveRequest props form] in
  match answer with
  | Saved updatedFacility =>
      mkOutcome (set_loading false form) sent (Some updatedFacility)
  | Refused data_error =>
      let fallback :=
        "Failed to " +:+ (if isEditMode props then "update" else "create")
        +:+ " facility" in
      let message :=
        match data_error with
        | Some e => if truthy_str e then e else fallback
        | None => fallback
        end in
      mkOutcome (set_loading false (set_error message form)) sent None
  | NetworkError =>
      mkOutcome (set_loading false (set_error "An error occurred" form)) sent None
  end.

Definition handleSubmit (props : Props) (form : Form)
    (upload : UploadResult) (answer : SaveResult) : Outcome :=
  let form := set_error EmptyString form in
  if negb (truthy_str (name form)) then
    mkOutcome (set_error "Name is required" form) [] None
  else if negb (truthy_str (form_parkId form)) then
    mkOutcome (set_error "Park selection is required" form) [] None
  else
    let form := set_loading true form in
    (* Upload photo if provided *)
    match photoFile form with
    | Some file =>
        match upload with
        | Uploaded url => save props (set_photoUrl url form) [UploadPhoto file] answer
        | UploadFailed =>
            mkOutcome (set_loading false (set_error "An error occurred" form))
                      [UploadPhoto file] None
        end
    | None => save props form [] answer
    end.

(** ** Facts about the facility form *)

Lemma truthy_str_false (s : string) : truthy_str s = false <-> s = EmptyString.
Proof. destruct s; simpl; split; congruence. Qed.

Lemma detectedPark_unique (props : Props) (park : Park) :
  In park (prop_parks props) ->
  pointInPark props park = true ->
  (forall q, In q (prop_parks props) -> pointInPark props q = true -> q = park) ->
  detectedPark props = Some park.
Proof.
  intros Hin Hp Huniq. unfold detectedPark.
  destruct (find (pointInPark props) (prop_parks props)) as [q|] eqn:Hf.
  - apply find_some in Hf as [Hq Hpq]. now rewrite (Huniq q Hq Hpq).
  - eapply find_none in Hf; [|exact Hin]. congruence.
Qed.

Lemma detectedPark_none (props : Props) :
  (forall q, In q (prop_parks props) -> pointInPark props q = false) ->
  detectedPark props = None.
Proof.
  intros Hnone. unfold detectedPark.
  destruct (find (pointInPark props) (prop_parks props)) as [q|] eqn:Hf;
    [|reflexivity].
  apply find_some in Hf as [Hq Hpq]. rewrite (Hnone q Hq) in Hpq. discriminate.
Qed.

(** C5: in create mode, with no park chosen yet, a point inside the
    polygon of exactly one park of the list sets [parkId] to the decimal
    writing of that park's id; a point inside no polygon leaves it empty,
    and then [handleSubmit] sends no request, submits nothing and shows an
    error; once a park is chosen by hand (and a name given, with no photo
    to upload) the save request goes out with that park. *)
Theorem facility_park_autodetect (props : Props) :
  prop_facility props = None ->
  (forall park, In park (prop_parks props) ->
     pointInPark props park = true ->
     (forall q, In q (prop_parks props) -> pointInPark props q = true -> q = park) ->
     parkIdEffect props EmptyString = pretty (p_id park))
  /\ ((forall q, In q (prop_parks props) -> pointInPark props q = false) ->
      parkIdEffect props EmptyString = EmptyString
      /\ forall form upload answer,
           form_parkId form = parkIdEffect props EmptyString ->
           requests (handleSubmit props form upload answer) = []
           /\ submitted (handleSubmit props form upload answer) = None
           /\ error (form_after (handleSubmit props form upload answer))
              <> EmptyString)
  /\ (forall form upload answer chosen,
        name form <> EmptyString -> chosen <> EmptyString ->
        photoFile form = None ->
        requests (handleSubmit props (set_parkId chosen form) upload answer)
        = [saveRequest props (set_loading true
                                (set_error EmptyString (set_parkId chosen form)))]
        /\ parkIdEffect props chosen = chosen).
Proof.
  intros Hcreate. split; [|split].
  - intros park Hin Hp Huniq. unfold parkIdEffect.
    now rewrite Hcreate, (detectedPark_unique props park Hin Hp Huniq).
  - intros Hnone.
    assert (Hempty : parkIdEffect props EmptyString = EmptyString).
    { unfold parkIdEffect. now rewrite Hcreate, (detectedPark_none props Hnone). }
    split; [exact Hempty|]. intros form upload answer Hid. rewrite Hempty in Hid.
    unfold handleSubmit. simpl. rewrite Hid.
    destruct (truthy_str (name form)); simpl; repeat split; discriminate.
  - intros form upload answer chosen Hname Hchosen Hphoto. split.
    + unfold handleSubmit. simpl. rewrite Hphoto.
      destruct (truthy_str (name form)) eqn:Hn;
        [|apply truthy_str_false in Hn; contradiction].
      destruct (truthy_str chosen) eqn:Hc;
        [|apply truthy_str_false in Hc; contradiction].
      simpl. now destruct answer.
    + unfold parkIdEffect. rewrite Hcreate.
      destruct (detectedPark props); [|reflexivity].
      destruct (truthy_str chosen) eqn:Hc; [reflexivity|].
      apply truthy_str_false in Hc. contradiction.
Qed.

(** ** More on the facility form *)

Lemma pretty_N_go_nonempty (x : N) (s : string) :
  s <> EmptyString -> pretty_N_go x s <> EmptyString.
Proof.
  revert s. induction (N.lt_wf_0 x) as [x _ IH]. intros s Hs.
  destruct (N.eq_dec x 0%N) as [->|Hx].
  - now rewrite pretty_N_go_0.
  - rewrite pretty_N_go_step by lia. apply IH; [|discriminate].
    apply N.div_lt; lia.
Qed.

Lemma pretty_N_nonempty (x : N) : pretty x <> EmptyString.
Proof.
  unfold pretty, pretty_N. case_decide; [discriminate|].
  rewrite pretty_N_go_step by lia. apply pretty_N_go_nonempty. discriminate.
Qed.

(** The decimal writing of an integer is never empty. *)
Lemma pretty_Z_nonempty (k : Z) : pretty k <> EmptyString.
Proof.
  destruct k as [|p|p]; [discriminate | apply pretty_N_nonempty | discriminate].
Qed.

Lemma truthy_str_true (s : string) : truthy_str s = true <-> s <> EmptyString.
Proof. destruct s; simpl; split; congruence. Qed.

(** X13: in edit mode the effect sets [parkId] to the decimal writing of
    the facility's parkId, whatever was chosen and wherever the point
    lies, and leaves it alone when the facility has none; a [parkId] that
    the effect sets, in edit or in create mode, is never empty, and two
    different ids never give the same one. *)
Theorem edit_mode_parkId (props : Props) (current : string) :
  (forall facility k,
      prop_facility props = Some facility -> parkId facility = Some k -> k <> 0%Z ->
      parkIdEffect props current = pretty k)
  /\ (forall facility,
        prop_facility props = Some facility ->
        parkId facility = None \/ parkId facility = Some 0%Z ->
        parkIdEffect props current = current)
  /\ (parkIdEffect props current = EmptyString -> current = EmptyString)
  /\ (forall j k : Z, pretty j = pretty k -> j = k).
Proof.
  split; [|split; [|split]].
  - intros facility k Hf Hk Hz. unfold parkIdEffect. rewrite Hf, Hk. simpl.
    now destruct (Z.eqb_spec k 0).
  - intros facility Hf [Hk|Hk]; unfold parkIdEffect; now rewrite Hf, Hk.
  - unfold parkIdEffect. intros H.
    destruct (prop_facility props) as [facility|].
    + destruct (parkId facility) as [k|]; [|exact H].
      destruct (truthy_num (Some k)); [|exact H].
      now apply pretty_Z_nonempty in H.
    + destruct (detectedPark props) as [park|]; [|exact H].
      destruct (truthy_str current) eqn:Hc; simpl in H; [exact H|].
      now apply pretty_Z_nonempty in H.
  - intros j k H. now apply (inj pretty).
Qed.

(** Takes apart the hypotheses about the requests of an outcome. *)
Ltac outcome_cases :=
  repeat match goal with
         | H : _ /\ _ |- _ => destruct H
         | H : _ \/ _ |- _ => destruct H
         | H : exists _, _ |- _ => destruct H
         | H : In _ _ |- _ => simpl in H
         | H : False |- _ => contradiction H
         | H : Some _ = Some _ |- _ => injection H as H; subst
         end.

(** X14: [handleSubmit] sends nothing exactly when the name or the
    [parkId] is empty, the missing name being reported first; the save
    request goes out exactly when both are there and the photo, if any,
    was uploaded; [onSubmit] gets the server's facility exactly when that
    request was answered with one, and then no error is shown; after a
    submission that passed the two checks [loading] is off again. *)
Theorem handleSubmit_outcome (props : Props) (form : Form)
    (upload : UploadResult) (answer : SaveResult) :
  (requests (handleSubmit props form upload answer) = []
   <-> name form = EmptyString \/ form_parkId form = EmptyString)
  /\ (name form = EmptyString ->
      error (form_after (handleSubmit props form upload answer))
      = "Name is required")
  /\ (name form <> EmptyString -> form_parkId form = EmptyString ->
      error (form_after (handleSubmit props form upload answer))
      = "Park selection is required")
  /\ ((exists method url body,
         In (SaveFacility method url body)
            (requests (handleSubmit props form upload answer)))
      <-> name form <> EmptyString /\ form_parkId form <> EmptyString
          /\ (photoFile form = None \/ exists url, upload = Uploaded url))
  /\ (forall facility,
        submitted (handleSubmit props form upload answer) = Some facility
        <-> answer = Saved facility
            /\ name form <> EmptyString /\ form_parkId form <> EmptyString
            /\ (photoFile form = None \/ exists url, upload = Uploaded url))
  /\ (submitted (handleSubmit props form upload answer) <> None ->
      error (form_after (handleSubmit props form upload answer)) = EmptyString)
  /\ (name form <> EmptyString -> form_parkId form <> EmptyString ->
      loading (form_after (handleSubmit props form upload answer)) = false).
Proof.
  destruct form as [nm ty de ca cw ct pf pu ld er pid].
  unfold handleSubmit, save, saveRequest. simpl.
  destruct nm as [|c nm];
    [|destruct pid as [|c' pid];
      [|destruct pf as [file|];
        [destruct upload as [url|]; [destruct answer|]|destruct answer]]];
    simpl.
  all: repeat split; intros; outcome_cases; try congruence; eauto 8.
Qed.

Lemma find_first {A : Type} (test : A -> bool) (l : list A) (x : A) :
  find test l = Some x <->
  exists before after,
    l = before ++ x :: after /\ test x = true
    /\ forall y, In y before -> test y = false.
Proof.
  induction l as [|a l IH]; simpl.
  - split; [discriminate|]. intros (before & after & H & _).
    now destruct before.
  - destruct (test a) eqn:Ha.
    + split.
      * intros [= <-]. exists [], l. now repeat split.
      * intros (before & after & H & Hx & Hb). destruct before as [|b before].
        -- now injection H as ->.
        -- injection H as <- _. rewrite Hb in Ha; [discriminate | now left].
    + rewrite IH. split.
      * intros (before & after & -> & Hx & Hb). exists (a :: before), after.
        repeat split; [assumption|]. intros y [<-|Hy]; [assumption | now apply Hb].
      * intros (before & after & H & Hx & Hb). destruct before as [|b before].
        -- injection H as -> _. congruence.
        -- injection H as _ ->. exists before, after. repeat split; [assumption|].
           intros y Hy. apply Hb. now right.
Qed.

(** X15: the detected park is the first park of the list, in its order,
    whose polygon test answers [true]; parks without geometry and parks
    whose test throws are passed over; there is none exactly when no park
    of the list answers [true]. *)
Theorem detectedPark_first (props : Props) :
  (forall park,
      detectedPark props = Some park <->
      exists before after,
        prop_parks props = before ++ park :: after
        /\ pointInPark props park = true
        /\ forall q, In q before -> pointInPark props q = false)
  /\ (detectedPark props = None <->
      forall q, In q (prop_parks props) -> pointInPark props q = false)
  /\ (forall q, pointInPark props q = true <->
        exists geometry,
          p_geometry q = Some geometry
          /\ booleanPointInPolygon (prop_longitude props, prop_latitude props)
                                   (coordinates geometry) = Some true).
Proof.
  split; [|split].
  - intros park. apply find_first.
  - unfold detectedPark. split.
    + intros H q Hq. now apply (find_none _ _ H).
    + intros H. destruct (find _ _) as [q|] eqn:Hf; [|reflexivity].
      apply find_some in Hf as [Hq Ht]. rewrite (H q Hq) in Ht. discriminate.
  - intros q. unfold pointInPark. destruct (p_geometry q) as [g|].
    + split.
      * intros H. exists g. split; [reflexivity|].
        destruct (booleanPointInPolygon _ _) as [[]|]; congruence.
      * intros (g' & [= <-] & H). now rewrite H.
    + split; [discriminate|]. intros (g & H & _). discriminate.
Qed.

End Form.
End FacilityForm.

(** ** routes/+page.svelte: the handlers of the admin page *)

Module Page.
Section Handlers.
Variable number : Type.

Local Abbreviation Geometry := (Geometry number).
Local Abbreviation District := (District number).
Local Abbreviation Park := (Park number).
Local Abbreviation Facility := (Facility number).
Local Abbreviation Store := (Store number).

(** The [$state] of the page; the three lists are the [Store]. *)
Record State := mkState {
  store : Store;
  showParkForm : bool;
  showFacilityForm : bool;
  showDistrictForm : bool;
  newParkGeometry : option Geometry;
  newFacilityLat : number;
  newFacilityLng : number;
  newDistrictGeometry : option Geometry;
  editingDistrict : option District;
  editingPark : option Park;
  editingFacility : option Facility
}.

Definition set_store (s : Store) (st : State) : State :=
  mkState s (showParkForm st) (showFacilityForm st) (showDistrictForm st)
          (newParkGeometry st) (newFacilityLat st) (newFacilityLng st)
          (newDistrictGeometry st) (editingDistrict st) (editingPark st)
          (editingFacility st).

(** What [fetch(..., { method: 'DELETE' })] comes back with: [response.ok],
    a response that is not ok with its [data.error], or a rejected
    promise. *)
Inductive DeleteResult :=
| Deleted
| NotDeleted (error : option string)
| DeleteThrew.

(** [alert(data.error || fallback)] *)
Definition alertText (error : option string) (fallback : string) : string :=
  match error with
  | Some e => if truthy_str e then e else fallback
  | None => fallback
  end.

(** [confirmed] is the answer to [confirm(...)]; the result is the state
    and the alerts shown. *)
Definition handleDistrictDelete (confirmed : bool) (result : DeleteResult)
    (districtId : Z) (st : State) : State * list string :=
  if negb confirmed then (st, [])
  else
    match result with
    | Deleted =>
        (set_store
           (mkStore
              (List.filter (fun d => negb (d_id d =? districtId)%Z)
                           (districts (store st)))
              (parks (store st))
              (facilities (store st))) st, [])
    | NotDeleted error => (st, [alertText error "Не удалось удалить округ"])
    | DeleteThrew => (st, ["Произошла ошибка при удалении округа"%string])
    end.

Definition handleParkDelete (confirmed : bool) (result : DeleteResult)
    (id : Z) (st : State) : State * list string :=
  if negb confirmed then (st, [])
  else
    match result with
    | Deleted =>
        (set_store
           (mkStore
              (districts (store st))
              (List.filter (fun p => negb (p_id p =? id)%Z) (parks (store st)))
              (* Also remove facilities that belonged to this park *)
              (List.filter (fun f => negb (bool_decide (parkId f = Some id)))
                           (facilities (store st)))) st, [])
    | NotDeleted error => (st, [alertText error "Не удалось удалить парк"])
    | DeleteThrew => (st, ["Произошла ошибка при удалении парка"%string])
    end.

Definition handleFacilityDelete (confirmed : bool) (result : DeleteResult)
    (id : Z) (st : State) : State * list string :=
  if negb confirmed then (st, [])
  else
    match result with
    | Deleted =>
        (set_store
           (mkStore
              (districts (store st))
              (parks (store st))
              (List.filter (fun f => negb (f_id f =? id)%Z) (facilities (store st))))
           st, [])
    | NotDeleted error => (st, [alertText error "Не удалось удалить объект"])
    | DeleteThrew => (st, ["Произошла ошибка при удалении объекта"%string])
    end.

Definition handleDistrictSubmit (district : District) (st : State) : State :=
  let districts' :=
    match editingDistrict st with
    | Some _ =>
        (* Update existing district *)
        map (fun d => if (d_id d =? d_id district)%Z then district else d)
            (districts (store st))
    | None =>
        (* Add new district *)
        districts (store st) ++ [district]
    end in
  mkState (mkStore districts' (parks (store st)) (facilities (store st)))
          (showParkForm st) (showFacilityForm st) false
          (newParkGeometry st) (newFacilityLat st) (newFacilityLng st)
          None None (editingPark st) (editingFacility st).

Definition handleParkSubmit (park : Park) (st : State) : State :=
  let parks' :=
    match editingPark st with
    | Some _ =>
        (* Update existing park *)
        map (fun p => if (p_id p =? p_id park)%Z then park else p) (parks (store st))
    | None =>
        (* Add new park *)
        parks (store st) ++ [park]
    end in
  mkState (mkStore (districts (store st)) parks' (facilities (store st)))
          false (showFacilityForm st) (showDistrictForm st)
          None (newFacilityLat st) (newFacilityLng st)
          (newDistrictGeometry st) (editingDistrict st) None (editingFacility st).

Definition handleFacilitySubmit (facility : Facility) (st : State) : State :=
  let facilities' :=
    match editingFacility st with
    | Some _ =>
        (* Update existing facility *)
        map (fun f => if (f_id f =? f_id facility)%Z then facility else f)
            (facilities (store st))
    | None =>
        (* Add new facility *)
        facilities (store st) ++ [facility]
    end in
  mkState (mkStore (districts (store st)) (parks (store st)) facilities')
          (showParkForm st) false (showDistrictForm st)
          (newParkGeometry st) (newFacilityLat st) (newFacilityLng st)
          (newDistrictGeometry st) (editingDistrict st) (editingPark st) None.

(** ** Facts about the delete handlers *)

Lemma In_filter_neq {A : Type} (key : A -> Z) (id : Z) (l : list A) (x : A) :
  In x (List.filter (fun y => negb (key y =? id)%Z) l) <-> In x l /\ key x <> id.
Proof. rewrite filter_In, negb_true_iff, Z.eqb_neq. reflexivity. Qed.

(** Every id of a park of the first store is still the id of a park of
    the second. *)
Definition keepsParkIds (s s' : Store) : Prop :=
  forall p, In p (parks s) -> exists q, In q (parks s') /\ p_id q = p_id p.

(** Of the handlers that change the lists, only [handleParkDelete] can
    take the id of a park out of the store. *)
Lemma handlers_keep_park_ids (st : State) :
  (forall district, keepsParkIds (store st) (store (handleDistrictSubmit district st)))
  /\ (forall park, keepsParkIds (store st) (store (handleParkSubmit park st)))
  /\ (forall facility,
        keepsParkIds (store st) (store (handleFacilitySubmit facility st)))
  /\ (forall confirmed result id,
        keepsParkIds (store st)
          (store (fst (handleDistrictDelete confirmed result id st)))
        /\ keepsParkIds (store st)
             (store (fst (handleFacilityDelete confirmed result id st)))).
Proof.
  assert (Hrefl : forall s s' : Store, parks s' = parks s -> keepsParkIds s s').
  { intros s s' Heq p Hp. exists p. now rewrite Heq. }
  split; [|split; [|split]].
  - intros district. now apply Hrefl.
  - intros park p Hp. unfold handleParkSubmit. simpl.
    destruct (editingPark st).
    + destruct (p_id p =? p_id park)%Z eqn:Hid.
      * exists park. split; [|symmetry; now apply Z.eqb_eq].
        apply in_map_iff. exists p. now rewrite Hid.
      * exists p. split; [|reflexivity]. apply in_map_iff. exists p. now rewrite Hid.
    + exists p. split; [|reflexivity]. apply in_or_app. now left.
  - intros facility. now apply Hrefl.
  - intros [] [] id; split; now apply Hrefl.
Qed.

(** C7: a confirmed park deletion that the server accepts removes from
    the lists of the page the parks with that id and the facilities whose
    parkId is that id, and nothing else; a confirmed and accepted district
    deletion removes the districts with that id and leaves the parks and
    the facilities as they are; a deletion that is not confirmed, or that
    fails, leaves the state as it is. *)
Theorem delete_cascade (st : State) (id : Z) :
  (let st' := fst (handleParkDelete true Deleted id st) in
   (forall p, In p (parks (store st')) <-> In p (parks (store st)) /\ p_id p <> id)
   /\ (forall f, In f (facilities (store st')) <->
                 In f (facilities (store st)) /\ parkId f <> Some id)
   /\ districts (store st') = districts (store st))
  /\ (let st' := fst (handleDistrictDelete true Deleted id st) in
      (forall d, In d (districts (store st')) <->
                 In d (districts (store st)) /\ d_id d <> id)
      /\ parks (store st') = parks (store st)
      /\ facilities (store st') = facilities (store st))
  /\ (forall result,
        fst (handleParkDelete false result id st) = st
        /\ fst (handleDistrictDelete false result id st) = st)
  /\ (forall confirmed result,
        result <> Deleted ->
        fst (handleParkDelete confirmed result id st) = st
        /\ fst (handleDistrictDelete confirmed result id st) = st).
Proof.
  split; [|split; [|split]]; simpl.
  - split; [|split; [|reflexivity]].
    + intros p. apply In_filter_neq.
    + intros f. rewrite filter_In, negb_true_iff, bool_decide_eq_false. reflexivity.
  - split; [|split; reflexivity].
    intros d. apply In_filter_neq.
  - now intros result.
  - intros [] [] H; try contradiction; now split.
Qed.

(** ** The other handlers of the page *)

Definition handleDistrictCreate (geometry : Geometry) (st : State) : State :=
  mkState (store st) (showParkForm st) (showFacilityForm st) true
          (newParkGeometry st) (newFacilityLat st) (newFacilityLng st)
          (Some geometry) (editingDistrict st) (editingPark st) (editingFacility st).

Definition handleParkCreate (geometry : Geometry) (st : State) : State :=
  mkState (store st) true (showFacilityForm st) (showDistrictForm st)
          (Some geometry) (newFacilityLat st) (newFacilityLng st)
          (newDistrictGeometry st) (editingDistrict st) (editingPark st)
          (editingFacility st).

Definition handleFacilityCreate (lat lng : number) (st : State) : State :=
  mkState (store st) (showParkForm st) true (showDistrictForm st)
          (newParkGeometry st) lat lng
          (newDistrictGeometry st) (editingDistrict st) (editingPark st)
          (editingFacility st).

Definition handleDistrictEdit (id : Z) (st : State) : State :=
  match find (fun d => (d_id d =? id)%Z) (districts (store st)) with
  | Some district =>
      mkState (store st) (showParkForm st) (showFacilityForm st) true
              (newParkGeometry st) (newFacilityLat st) (newFacilityLng st)
              (d_geometry district) (Some district) (editingPark st)
              (editingFacility st)
  | None => st
  end.

Definition handleParkEdit (id : Z) (st : State) : State :=
  match find (fun p => (p_id p =? id)%Z) (parks (store st)) with
  | Some park =>
      mkState (store st) true (showFacilityForm st) (showDistrictForm st)
              (p_geometry park) (newFacilityLat st) (newFacilityLng st)
              (newDistrictGeometry st) (editingDistrict st) (Some park)
              (editingFacility st)
  | None => st
  end.

Definition handleFacilityEdit (id : Z) (st : State) : State :=
  match find (fun f => (f_id f =? id)%Z) (facilities (store st)) with
  | Some facility =>
      mkState (store st) (showParkForm st) true (showDistrictForm st)
              (newParkGeometry st) (latitude facility) (longitude facility)
              (newDistrictGeometry st) (editingDistrict st) (editingPark st)
              (Some facility)
  | None => st
  end.

Definition closeDistrictForm (st : State) : State :=
  mkState (store st) (showParkForm st) (showFacilityForm st) false
          (newParkGeometry st) (newFacilityLat st) (newFacilityLng st)
          None None (editingPark st) (editingFacility st).

Definition closeParkForm (st : State) : State :=
  mkState (store st) false (showFacilityForm st) (showDistrictForm st)
          None (newFacilityLat st) (newFacilityLng st)
          (newDistrictGeometry st) (editingDistrict st) None (editingFacility st).

Definition closeFacilityForm (st : State) : State :=
  mkState (store st) (showParkForm st) false (showDistrictForm st)
          (newParkGeometry st) (newFacilityLat st) (newFacilityLng st)
          (newDistrictGeometry st) (editingDistrict st) (editingPark st) None.

(** The conditions of the template on the three forms:
    [{#if showDistrictForm && newDistrictGeometry}],
    [{#if showParkForm && newParkGeometry}], [{#if showFacilityForm}]. *)
Definition districtFormShown (st : State) : bool :=
  showDistrictForm st
  && match newDistrictGeometry st with Some _ => true | None => false end.

Definition parkFormShown (st : State) : bool :=
  showParkForm st
  && match newParkGeometry st with Some _ => true | None => false end.

Definition facilityFormShown (st : State) : bool := showFacilityForm st.

(** ** More on the handlers of the page *)

(** [l.map((x) => (x.id === y.id ? y : x))] *)
Definition replaceById {A : Type} (key : A -> Z) (y : A) (l : list A) : list A :=
  map (fun x => if (key x =? key y)%Z then y else x) l.

Lemma replaceById_spec {A : Type} (key : A -> Z) (y : A) (l : list A) :
  length (replaceById key y l) = length l
  /\ (forall z, In z (replaceById key y l) <->
        (z = y /\ exists x, In x l /\ key x = key y)
        \/ (In z l /\ key z <> key y))
  /\ ((forall x, In x l -> key x <> key y) -> replaceById key y l = l).
Proof.
  unfold replaceById. split; [apply length_map|]. split.
  - intros z. rewrite in_map_iff. split.
    + intros (x & Hz & Hx). destruct (Z.eqb_spec (key x) (key y)) as [Heq|Hne].
      * left. split; [now symmetry | now exists x].
      * right. subst z. now split.
    + intros [[-> (x & Hx & Heq)]|[Hz Hne]].
      * exists x. split; [|assumption]. apply Z.eqb_eq in Heq. now rewrite Heq.
      * exists z. split; [|assumption]. apply Z.eqb_neq in Hne. now rewrite Hne.
  - intros Hnone. induction l as [|x l IH]; [reflexivity|]. simpl.
    rewrite IH by (intros x' Hx'; apply Hnone; now right).
    specialize (Hnone x (or_introl eq_refl)). apply Z.eqb_neq in Hnone.
    now rewrite Hnone.
Qed.

(** X16: a submitted park is appended to the list when no park is being
    edited; when one is, the list keeps its length, the parks with the
    submitted park's id are replaced by it and the others stay, so a
    submitted park whose id is not in the list changes nothing; either
    way the form is closed, and the districts and facilities are left
    alone.  The facility and district handlers do the same on their
    lists. *)
Theorem submit_appends_or_replaces (st : State) :
  (forall park,
      (editingPark st = None ->
       parks (store (handleParkSubmit park st)) = parks (store st) ++ [park])
      /\ (editingPark st <> None ->
          parks (store (handleParkSubmit park st))
          = replaceById p_id park (parks (store st))
          /\ length (parks (store (handleParkSubmit park st)))
             = length (parks (store st))
          /\ (forall q, In q (parks (store (handleParkSubmit park st))) <->
                (q = park /\ exists p, In p (parks (store st)) /\ p_id p = p_id park)
                \/ (In q (parks (store st)) /\ p_id q <> p_id park))
          /\ ((forall p, In p (parks (store st)) -> p_id p <> p_id park) ->
              parks (store (handleParkSubmit park st)) = parks (store st)))
      /\ parkFormShown (handleParkSubmit park st) = false
      /\ editingPark (handleParkSubmit park st) = None
      /\ districts (store (handleParkSubmit park st)) = districts (store st)
      /\ facilities (store (handleParkSubmit park st)) = facilities (store st))
  /\ (forall facility,
        (editingFacility st = None ->
         facilities (store (handleFacilitySubmit facility st))
         = facilities (store st) ++ [facility])
        /\ (editingFacility st <> None ->
            facilities (store (handleFacilitySubmit facility st))
            = replaceById f_id facility (facilities (store st)))
        /\ facilityFormShown (handleFacilitySubmit facility st) = false
        /\ editingFacility (handleFacilitySubmit facility st) = None
        /\ parks (store (handleFacilitySubmit facility st)) = parks (store st))
  /\ (forall district,
        (editingDistrict st = None ->
         districts (store (handleDistrictSubmit district st))
         = districts (store st) ++ [district])
        /\ (editingDistrict st <> None ->
            districts (store (handleDistrictSubmit district st))
            = replaceById d_id district (districts (store st)))
        /\ districtFormShown (handleDistrictSubmit district st) = false
        /\ editingDistrict (handleDistrictSubmit district st) = None
        /\ parks (store (handleDistrictSubmit district st)) = parks (store st)).
Proof.
  split; [|split].
  - intros park. unfold handleParkSubmit, parkFormShown. simpl.
    destruct (editingPark st) as [edited|].
    + split; [discriminate|]. split; [|now repeat split]. intros _.
      destruct (replaceById_spec p_id park (parks (store st))) as (Hlen & Hin & Hnone).
      split; [reflexivity|]. split; [exact Hlen|]. split; [exact Hin | exact Hnone].
    + split; [reflexivity|]. split; [|now repeat split]. intros H. now contradiction H.
  - intros facility. unfold handleFacilitySubmit, facilityFormShown. simpl.
    destruct (editingFacility st); repeat split; try discriminate.
    intros H. now contradiction H.
  - intros district. unfold handleDistrictSubmit, districtFormShown. simpl.
    destruct (editingDistrict st); repeat split; try discriminate.
    intros H. now contradiction H.
Qed.

Lemma find_by_id {A : Type} (key : A -> Z) (id : Z) (l : list A) :
  (forall x, find (fun y => (key y =? id)%Z) l = Some x -> In x l /\ key x = id)
  /\ (find (fun y => (key y =? id)%Z) l = None <-> forall x, In x l -> key x <> id).
Proof.
  split.
  - intros x H. apply find_some in H as [Hin Hk]. now apply Z.eqb_eq in Hk.
  - split.
    + intros H x Hx. apply (find_none _ _ H) in Hx. now apply Z.eqb_neq.
    + intros H. destruct (find _ l) as [x|] eqn:Hf; [|reflexivity].
      apply find_some in Hf as [Hin Hk]. apply Z.eqb_eq in Hk.
      now contradiction (H x Hin).
Qed.

(** X17: the edit button of a popup opens the form on the first entity
    of the list with that id and does nothing when there is none; the
    park form is shown only if that park has a geometry; a submission
    made from there replaces and never appends, and one made after the
    create callback, with no edit pending, appends; closing the form
    gives the lists back as they were with nothing being edited. *)
Theorem edit_and_create_flows (st : State) (id : Z) :
  ((forall p, In p (parks (store st)) -> p_id p <> id) -> handleParkEdit id st = st)
  /\ ((forall f, In f (facilities (store st)) -> f_id f <> id) ->
      handleFacilityEdit id st = st)
  /\ ((forall d, In d (districts (store st)) -> d_id d <> id) ->
      handleDistrictEdit id st = st)
  /\ (forall p, In p (parks (store st)) -> p_id p = id ->
        exists edited,
          editingPark (handleParkEdit id st) = Some edited
          /\ In edited (parks (store st)) /\ p_id edited = id
          /\ (parkFormShown (handleParkEdit id st) = true
              <-> p_geometry edited <> None)
          /\ forall park,
               parks (store (handleParkSubmit park (handleParkEdit id st)))
               = replaceById p_id park (parks (store st)))
  /\ (forall geometry park,
        editingPark st = None ->
        parkFormShown (handleParkCreate geometry st) = true
        /\ parks (store (handleParkSubmit park (handleParkCreate geometry st)))
           = parks (store st) ++ [park])
  /\ (forall geometry,
        store (closeParkForm (handleParkEdit id st)) = store st
        /\ editingPark (closeParkForm (handleParkEdit id st)) = None
        /\ parkFormShown (closeParkForm (handleParkEdit id st)) = false
        /\ store (closeParkForm (handleParkCreate geometry st)) = store st
        /\ parkFormShown (closeParkForm (handleParkCreate geometry st)) = false).
Proof.
  split; [|split; [|split; [|split; [|split]]]].
  - intros Hnone. unfold handleParkEdit.
    destruct (find_by_id p_id id (parks (store st))) as [_ Hf].
    now rewrite (proj2 Hf Hnone).
  - intros Hnone. unfold handleFacilityEdit.
    destruct (find_by_id f_id id (facilities (store st))) as [_ Hf].
    now rewrite (proj2 Hf Hnone).
  - intros Hnone. unfold handleDistrictEdit.
    destruct (find_by_id d_id id (districts (store st))) as [_ Hf].
    now rewrite (proj2 Hf Hnone).
  - intros p Hp Hid. unfold handleParkEdit.
    destruct (find_by_id p_id id (parks (store st))) as [Hsome Hnone].
    destruct (find _ (parks (store st))) as [edited|] eqn:Hf.
    + destruct (Hsome edited eq_refl) as [Hin Hk]. exists edited.
      unfold parkFormShown, handleParkSubmit. simpl.
      repeat split; try assumption.
      * now destruct (p_geometry edited).
      * intros H. now destruct (p_geometry edited).
    + now contradiction (proj1 Hnone eq_refl p Hp).
  - intros geometry park Hnone. unfold handleParkSubmit, handleParkCreate,
      parkFormShown. simpl. now rewrite Hnone.
  - intros geometry. unfold handleParkEdit, closeParkForm, handleParkCreate,
      parkFormShown.
    destruct (find _ (parks (store st))); now repeat split.
Qed.

Lemma filter_none {A : Type} (test : A -> bool) (l : list A) :
  (forall x, In x l -> test x = true) -> List.filter test l = l.
Proof.
  intros H. induction l as [|x l IH]; [reflexivity|]. simpl.
  rewrite (H x (or_introl eq_refl)), IH; [reflexivity|].
  intros y Hy. apply H. now right.
Qed.

Lemma filter_app_one {A : Type} (test : A -> bool) (l : list A) (x : A) :
  test x = false -> (forall y, In y l -> test y = true) ->
  List.filter test (l ++ [x]) = l.
Proof.
  intros Hx Hl. rewrite List.filter_app. simpl. rewrite Hx, app_nil_r.
  now apply filter_none.
Qed.

(** X18: creating a park whose id no park of the list has and then
    deleting it gives the list of parks back, and the list of facilities
    too when no facility had that id as parkId; the same round trip holds
    for a facility and for a district. *)
Theorem create_then_delete_restores (st : State) :
  (forall park,
      editingPark st = None ->
      (forall p, In p (parks (store st)) -> p_id p <> p_id park) ->
      parks (store (fst (handleParkDelete true Deleted (p_id park)
                           (handleParkSubmit park st))))
      = parks (store st)
      /\ ((forall f, In f (facilities (store st)) -> parkId f <> Some (p_id park)) ->
          facilities (store (fst (handleParkDelete true Deleted (p_id park)
                                    (handleParkSubmit park st))))
          = facilities (store st)))
  /\ (forall facility,
        editingFacility st = None ->
        (forall f, In f (facilities (store st)) -> f_id f <> f_id facility) ->
        store (fst (handleFacilityDelete true Deleted (f_id facility)
                      (handleFacilitySubmit facility st)))
        = store st)
  /\ (forall district,
        editingDistrict st = None ->
        (forall d, In d (districts (store st)) -> d_id d <> d_id district) ->
        store (fst (handleDistrictDelete true Deleted (d_id district)
                      (handleDistrictSubmit district st)))
        = store st).
Proof.
  split; [|split].
  - intros park Hnone Hfresh. unfold handleParkSubmit, handleParkDelete.
    rewrite Hnone. simpl. split.
    + apply filter_app_one.
      * now rewrite Z.eqb_refl.
      * intros p Hp. apply negb_true_iff, Z.eqb_neq. now apply Hfresh.
    + intros Hfac. apply filter_none. intros f Hf.
      apply negb_true_iff, bool_decide_eq_false. now apply Hfac.
  - intros facility Hnone Hfresh. unfold handleFacilitySubmit, handleFacilityDelete.
    rewrite Hnone. simpl. destruct (store st) as [ds ps fs]. simpl in *. f_equal.
    apply filter_app_one.
    + now rewrite Z.eqb_refl.
    + intros f Hf. apply negb_true_iff, Z.eqb_neq. now apply Hfresh.
  - intros district Hnone Hfresh. unfold handleDistrictSubmit, handleDistrictDelete.
    rewrite Hnone. simpl. destruct (store st) as [ds ps fs]. simpl in *. f_equal.
    apply filter_app_one.
    + now rewrite Z.eqb_refl.
    + intros d Hd. apply negb_true_iff, Z.eqb_neq. now apply Hfresh.
Qed.

(** X19: a confirmed and accepted facility deletion removes the
    facilities with that id and nothing else; no handler shows an alert
    when the deletion is not confirmed or succeeds, and each shows exactly
    one when it fails: the server's error text if there is one, the
    handler's own text otherwise, and the lists stay as they were. *)
Theorem facility_delete_and_alerts (st : State) (id : Z) :
  (let st' := fst (handleFacilityDelete true Deleted id st) in
   (forall f, In f (facilities (store st')) <->
              In f (facilities (store st)) /\ f_id f <> id)
   /\ parks (store st') = parks (store st)
   /\ districts (store st') = districts (store st))
  /\ (forall result,
        handleFacilityDelete false result id st = (st, [])
        /\ handleParkDelete false result id st = (st, [])
        /\ handleDistrictDelete false result id st = (st, []))
  /\ snd (handleFacilityDelete true Deleted id st) = []
  /\ snd (handleParkDelete true Deleted id st) = []
  /\ snd (handleDistrictDelete true Deleted id st) = []
  /\ (forall result, result <> Deleted ->
        fst (handleFacilityDelete true result id st) = st
        /\ length (snd (handleFacilityDelete true result id st)) = 1
        /\ length (snd (handleParkDelete true result id st)) = 1
        /\ length (snd (handleDistrictDelete true result id st)) = 1)
  /\ (forall text, text <> EmptyString ->
        snd (handleFacilityDelete true (NotDeleted (Some text)) id st) = [text]
        /\ snd (handleParkDelete true (NotDeleted (Some text)) id st) = [text]
        /\ snd (handleDistrictDelete true (NotDeleted (Some text)) id st) = [text]).
Proof.
  split; [|split; [|split; [|split; [|split; [|split]]]]]; simpl;
    try reflexivity.
  - split; [|now split]. intros f. apply In_filter_neq.
  - now intros result.
  - intros [] H; try contradiction; now repeat split.
  - intros text Ht. unfold alertText.
    destruct text; [contradiction|]. now repeat split.
Qed.

End Handlers.
End Page.

(** ** lib/server/auth.ts *)

Module Auth.

Definition SESSION_COOKIE_NAME : string := "admin_session".
Definition SESSION_MAX_AGE : Z := (60 * 60 * 24 * 7)%Z.

(** The options [createSession] sets the cookie with. *)
Record CookieOptions := mkCookieOptions {
  path : string;
  httpOnly : bool;
  secure : bool;
  sameSite : string;
  maxAge : option Z
}.

(** The cookie jar of a request: [cookies.get] is the lookup; the
    options set go to the browser and are kept aside. *)
Record Cookies := mkCookies {
  values : gmap string string;
  options : gmap string CookieOptions
}.

(** [env.ADMIN_USERNAME] and [env.ADMIN_PASSWORD] may be undefined. *)
Definition verifyCredentials (ADMIN_USERNAME ADMIN_PASSWORD : option string)
    (username password : string) : bool :=
  bool_decide (Some username = ADMIN_USERNAME)
  && bool_decide (Some password = ADMIN_PASSWORD).

(** [sessionToken] is the value of [crypto.randomUUID()]; it is set on the
    cookie and kept nowhere else. *)
Definition createSession (sessionToken : string) (cookies : Cookies) : Cookies :=
  mkCookies
    (<[SESSION_COOKIE_NAME := sessionToken]> (values cookies))
    (<[SESSION_COOKIE_NAME :=
         mkCookieOptions "/" true false "lax" (Some SESSION_MAX_AGE)]>
       (options cookies)).

Definition destroySession (cookies : Cookies) : Cookies :=
  mkCookies (delete SESSION_COOKIE_NAME (values cookies))
            (delete SESSION_COOKIE_NAME (options cookies)).

Definition isAuthenticated (cookies : Cookies) : bool :=
  let session := values cookies !! SESSION_COOKIE_NAME in
  truthy_ostr session.

(** The request a browser sends with the given value for the session
    cookie. *)
Definition withSessionCookie (value : string) (cookies : Cookies) : Cookies :=
  mkCookies (<[SESSION_COOKIE_NAME := value]> (values cookies)) (options cookies).

(** C10: the gate answers [true] exactly when the [admin_session] cookie
    is there with a value that is not empty; which value is of no
    account: a request with any non-empty value passes, also after a
    session was created with another token, and after it was destroyed. *)
Theorem isAuthenticated_iff :
  (forall cookies,
      isAuthenticated cookies = true <->
      exists value, values cookies !! "admin_session" = Some value
                    /\ value <> EmptyString)
  /\ (forall cookies sessionToken value,
        value <> EmptyString ->
        isAuthenticated (withSessionCookie value (createSession sessionToken cookies))
        = true
        /\ isAuthenticated
             (withSessionCookie value
                (destroySession (createSession sessionToken cookies))) = true).
Proof.
  assert (Hiff : forall cookies,
      isAuthenticated cookies = true <->
      exists value, values cookies !! "admin_session" = Some value
                    /\ value <> EmptyString).
  { intros cookies. unfold isAuthenticated, SESSION_COOKIE_NAME. simpl.
    destruct (values cookies !! "admin_session") as [v|]; simpl.
    - destruct v; simpl.
      + split; [discriminate|]. intros (v & [= <-] & H). contradiction.
      + split; [|reflexivity]. intros _. eexists. split; [reflexivity|discriminate].
    - split; [discriminate|]. intros (v & H & _). discriminate. }
  split; [exact Hiff|].
  intros cookies sessionToken value Hvalue.
  split; apply Hiff; exists value; (split; [|assumption]);
    unfold withSessionCookie, SESSION_COOKIE_NAME; simpl; apply lookup_insert_eq.
Qed.

(** X20: a created session passes the gate whenever its token is not
    empty and a destroyed one never does, also right after it was
    created; neither touches the value of any other cookie; the session
    cookie is set http-only, for the whole site, for seven days. *)
Theorem session_lifecycle (cookies : Cookies) (sessionToken : string) :
  (sessionToken <> EmptyString ->
   isAuthenticated (createSession sessionToken cookies) = true)
  /\ isAuthenticated (destroySession cookies) = false
  /\ isAuthenticated (destroySession (createSession sessionToken cookies)) = false
  /\ (forall other, other <> SESSION_COOKIE_NAME ->
        values (createSession sessionToken cookies) !! other = values cookies !! other
        /\ values (destroySession cookies) !! other = values cookies !! other)
  /\ options (createSession sessionToken cookies) !! SESSION_COOKIE_NAME
     = Some (mkCookieOptions "/" true false "lax" (Some 604800%Z)).
Proof.
  unfold isAuthenticated, createSession, destroySession. simpl.
  split; [|split; [|split; [|split]]].
  - intros Ht. rewrite lookup_insert_eq. simpl. now destruct sessionToken.
  - now rewrite lookup_delete_eq.
  - now rewrite lookup_delete_eq.
  - intros other Hne. split.
    + now apply lookup_insert_ne.
    + now apply lookup_delete_ne.
  - now rewrite lookup_insert_eq.
Qed.

End Auth.

(** ** routes/api/districts: the four request handlers

    The database is on the other side of the driver: a handler is modelled
    by the queries it issues, in order, and the response it gives to what
    the driver returns. *)

Module DistrictsApi.
Section Endpoints.
(** A value of a JSON request body, the value of [new Date()], a row of
    the [districts] table as the driver returns it. *)
Variable Json : Type.
Variable Time : Type.
Variable Row : Type.

(** [const { name, geometry, area } = data]: a field that the body does
    not have is [undefined]. *)
Record Data := mkData {
  data_name : option Json;
  data_geometry : option Json;
  data_area : option Json
}.

(** [id] is [parseInt(params.id)], [None] for [NaN]. *)
Inductive Query :=
| SelectAll
| Insert (name geometry area : option Json) (createdAt updatedAt : Time)
| Update (id : option Z) (name geometry area : option Json) (updatedAt : Time)
| Delete (id : option Z).

Inductive QueryResult :=
| Rows (rows : list Row)
| QueryThrew.

Inductive Payload :=
| AllDistricts (rows : list Row)
| OneDistrict (row : option Row)
| Success
| ErrorMessage (error : string).

Record Response := mkResponse {
  status : nat;
  payload : Payload
}.

(** [json(data)] answers with status 200. *)
Definition json (data : Payload) : Response := mkResponse 200 data.

Definition GET (db : QueryResult) : list Query * Response :=
  ([SelectAll],
   match db with
   | Rows allDistricts => json (AllDistricts allDistricts)
   | QueryThrew => mkResponse 500 (ErrorMessage "Failed to fetch districts")
   end).

(** [body] is [None] when [request.json()] rejects or gives [null]. *)
Definition POST (cookies : Auth.Cookies) (body : option Data)
    (createdAt updatedAt : Time) (db : QueryResult) : list Query * Response :=
  if negb (Auth.isAuthenticated cookies) then
    ([], mkResponse 401 (ErrorMessage "Unauthorized"))
  else
    match body with
    | Some data =>
        ([Insert (data_name data) (data_geometry data) (data_area data)
                 createdAt updatedAt],
         match db with
         | Rows rows => json (OneDistrict (head rows))
         | QueryThrew => mkResponse 500 (ErrorMessage "Failed to create district")
         end)
    | None => ([], mkResponse 500 (ErrorMessage "Failed to create district"))
    end.

Definition PUT (cookies : Auth.Cookies) (id : option Z) (body : option Data)
    (updatedAt : Time) (db : QueryResult) : list Query * Response :=
  if negb (Auth.isAuthenticated cookies) then
    ([], mkResponse 401 (ErrorMessage "Unauthorized"))
  else
    match body with
    | Some data =>
        ([Update id (data_name data) (data_geometry data) (data_area data) updatedAt],
         match db with
         | Rows rows => json (OneDistrict (head rows))
         | QueryThrew => mkResponse 500 (ErrorMessage "Failed to update district")
         end)
    | None => ([], mkResponse 500 (ErrorMessage "Failed to update district"))
    end.

Definition DELETE (cookies : Auth.Cookies) (id : option Z) (db : QueryResult)
  : list Query * Response :=
  if negb (Auth.isAuthenticated cookies) then
    ([], mkResponse 401 (ErrorMessage "Unauthorized"))
  else
    ([Delete id],
     match db with
     | Rows _ => json Success
     | QueryThrew => mkResponse 500 (ErrorMessage "Failed to delete district")
     end).

(** ** Facts about the handlers *)

Lemma gate_closed (cookies : Auth.Cookies) :
  Auth.values cookies !! "admin_session" = None
  \/ Auth.values cookies !! "admin_session" = Some EmptyString ->
  Auth.isAuthenticated cookies = false.
Proof.
  unfold Auth.isAuthenticated, Auth.SESSION_COOKIE_NAME.
  intros [H|H]; now rewrite H.
Qed.

(** X21: a request to create, update or delete a district that comes
    without the session cookie, or with an empty one, is answered 401
    [Unauthorized] and issues no query, whatever its body and its id. *)
Theorem mutations_require_session (cookies : Auth.Cookies) (id : option Z)
    (body : option Data) (createdAt updatedAt : Time) (db : QueryResult) :
  Auth.values cookies !! "admin_session" = None
  \/ Auth.values cookies !! "admin_session" = Some EmptyString ->
  POST cookies body createdAt updatedAt db
  = ([], mkResponse 401 (ErrorMessage "Unauthorized"))
  /\ PUT cookies id body updatedAt db
     = ([], mkResponse 401 (ErrorMessage "Unauthorized"))
  /\ DELETE cookies id db = ([], mkResponse 401 (ErrorMessage "Unauthorized")).
Proof.
  intros Hgate. apply gate_closed in Hgate.
  unfold POST, PUT, DELETE. now rewrite Hgate.
Qed.

(** X22: with a session, a create or update whose body cannot be read
    issues no query and is answered 500; otherwise each handler issues
    exactly one query, and answers 200 exactly when the driver does not
    throw and 500 when it does; a delete is answered [success] whatever
    rows it matched, and an update that returns no row is answered 200
    with no district. *)
Theorem handler_outcomes (cookies : Auth.Cookies) (id : option Z)
    (createdAt updatedAt : Time) :
  Auth.isAuthenticated cookies = true ->
  (forall db,
      POST cookies None createdAt updatedAt db
      = ([], mkResponse 500 (ErrorMessage "Failed to create district"))
      /\ PUT cookies id None updatedAt db
         = ([], mkResponse 500 (ErrorMessage "Failed to update district")))
  /\ (forall data db,
        fst (POST cookies (Some data) createdAt updatedAt db)
        = [Insert (data_name data) (data_geometry data) (data_area data)
                  createdAt updatedAt]
        /\ fst (PUT cookies id (Some data) updatedAt db)
           = [Update id (data_name data) (data_geometry data) (data_area data)
                     updatedAt]
        /\ fst (DELETE cookies id db) = [Delete id])
  /\ (forall data db,
        (status (snd (POST cookies (Some data) createdAt updatedAt db)) = 200
         <-> db <> QueryThrew)
        /\ (status (snd (PUT cookies id (Some data) updatedAt db)) = 200
            <-> db <> QueryThrew)
        /\ (status (snd (DELETE cookies id db)) = 200 <-> db <> QueryThrew)
        /\ (status (snd (GET db)) = 200 <-> db <> QueryThrew))
  /\ (forall data,
        status (snd (POST cookies (Some data) createdAt updatedAt QueryThrew)) = 500
        /\ status (snd (PUT cookies id (Some data) updatedAt QueryThrew)) = 500
        /\ status (snd (DELETE cookies id QueryThrew)) = 500
        /\ status (snd (GET QueryThrew)) = 500)
  /\ (forall rows, snd (DELETE cookies id (Rows rows)) = json Success)
  /\ (forall data,
        snd (PUT cookies id (Some data) updatedAt (Rows []))
        = json (OneDistrict None)).
Proof.
  intros Hauth. unfold POST, PUT, DELETE, GET. rewrite Hauth. simpl.
  split; [now intros db|]. split; [now intros data db|].
  split; [|now repeat split].
  intros data db. destruct db; simpl; repeat split; try discriminate;
    try congruence.
Qed.

End Endpoints.
End DistrictsApi.

(** ** lib/server/storage: photos in the object store *)

Module Storage.

(** [env.X || fallback] *)
Definition or_default (value : option string) (fallback : string) : string :=
  match value with
  | Some s => if truthy_str s then s else fallback
  | None => fallback
  end.

(** The variables of the environment that the two functions read. *)
Record Env := mkEnv {
  MINIO_BUCKET : option string;
  PUBLIC_ASSET_URL : option string
}.

Definition BUCKET_NAME (env : Env) : string :=
  or_default (MINIO_BUCKET env) "parks-photos".

(** The name and the media type of a [File]. *)
Record File := mkFile {
  file_name : string;
  file_type : string
}.

Inductive Command :=
| PutObject (Bucket Key ContentType ACL : string)
| DeleteObject (Bucket Key : string).

(** [`${Date.now()}-${file.name}`] *)
Definition fileName (now : Z) (file : File) : string :=
  pretty now +:+ "-" +:+ file_name file.

Definition publicUrl (env : Env) (name : string) : string :=
  match PUBLIC_ASSET_URL env with
  | Some base =>
      if truthy_str base then base +:+ "/" +:+ BUCKET_NAME env +:+ "/" +:+ name
      else "http://localhost:9000/" +:+ BUCKET_NAME env +:+ "/" +:+ name
  | None => "http://localhost:9000/" +:+ BUCKET_NAME env +:+ "/" +:+ name
  end.

(** [uploadPhoto]: the command sent and, when the store accepts it
    ([sent]), the public URL returned; when [send] rejects, so does
    [uploadPhoto]. *)
Definition uploadPhoto (env : Env) (now : Z) (file : File) (sent : bool)
  : list Command * option string :=
  ([PutObject (BUCKET_NAME env) (fileName now file) (file_type file) "public-read"],
   if sent then Some (publicUrl env (fileName now file)) else None).

(** [s.split('/')] *)
Fixpoint split (s : string) : list string :=
  match s with
  | EmptyString => [EmptyString]
  | String c rest =>
      if Ascii.eqb c "/" then EmptyString :: split rest
      else match split rest with
           | part :: parts => String c part :: parts
           | [] => [String c EmptyString]
           end
  end.

(** [urlParts[urlParts.length - 1]] *)
Definition lastPart (url : string) : string := List.last (split url) EmptyString.

Definition deletePhoto (env : Env) (url : string) : list Command :=
  [DeleteObject (BUCKET_NAME env) (lastPart url)].

(** ** Facts about the storage *)

(** The string has no slash. *)
Fixpoint slashless (s : string) : bool :=
  match s with
  | EmptyString => true
  | String c rest => negb (Ascii.eqb c "/") && slashless rest
  end.

Lemma split_cons (c : ascii) (s : string) :
  split (String c s)
  = if Ascii.eqb c "/" then EmptyString :: split s
    else match split s with
         | part :: parts => String c part :: parts
         | [] => [String c EmptyString]
         end.
Proof. reflexivity. Qed.

Lemma split_nonempty (s : string) : split s <> [].
Proof.
  induction s as [|c s IH]; [discriminate|]. rewrite split_cons.
  destruct (Ascii.eqb c "/"); [discriminate|].
  now destruct (split s).
Qed.

Lemma split_slashless (s : string) : slashless s = true -> split s = [s].
Proof.
  induction s as [|c s IH]; [reflexivity|]. simpl slashless. rewrite split_cons.
  intros [Hc Hs]%andb_true_iff. apply negb_true_iff in Hc.
  now rewrite Hc, (IH Hs).
Qed.

Lemma split_slash (s : string) :
  slashless s = false -> exists p q qs, split s = p :: q :: qs.
Proof.
  induction s as [|c s IH]; [discriminate|]. simpl slashless. rewrite split_cons.
  destruct (Ascii.eqb c "/"); simpl.
  - intros _. pose proof (split_nonempty s) as Hne.
    destruct (split s) as [|q qs]; [contradiction|]. now exists EmptyString, q, qs.
  - intros Hs. destruct (IH Hs) as (p & q & qs & ->). now exists (String c p), q, qs.
Qed.

Lemma lastPart_cons (c : ascii) (s : string) :
  lastPart (String c s)
  = if Ascii.eqb c "/" then lastPart s
    else if slashless s then String c s else lastPart s.
Proof.
  unfold lastPart. rewrite split_cons.
  destruct (Ascii.eqb c "/").
  - pose proof (split_nonempty s) as Hne. now destruct (split s).
  - destruct (slashless s) eqn:Hs.
    + now rewrite (split_slashless s Hs).
    + destruct (split_slash s Hs) as (p & q & qs & ->). reflexivity.
Qed.

Lemma lastPart_slashless (s : string) : slashless s = true -> lastPart s = s.
Proof. intros Hs. unfold lastPart. now rewrite (split_slashless s Hs). Qed.

Lemma slashless_lastPart (s : string) : slashless (lastPart s) = true.
Proof.
  induction s as [|c s IH]; [reflexivity|]. rewrite lastPart_cons.
  destruct (Ascii.eqb c "/") eqn:Hc; [exact IH|].
  destruct (slashless s) eqn:Hs; [|exact IH]. simpl. now rewrite Hc, Hs.
Qed.

Lemma slashless_append (a b : string) :
  slashless (a +:+ b) = slashless a && slashless b.
Proof.
  induction a as [|c a IH]; [reflexivity|].
  change (String c a +:+ b) with (String c (a +:+ b)). simpl.
  now rewrite IH, andb_assoc.
Qed.

(** The last part of a string is what comes after its last slash. *)
Lemma lastPart_after_slash (a b : string) :
  lastPart (a +:+ "/" +:+ b) = lastPart b.
Proof.
  induction a as [|c a IH].
  - change (EmptyString +:+ "/" +:+ b) with (String "/" b).
    now rewrite lastPart_cons.
  - change (String c a +:+ "/" +:+ b) with (String c (a +:+ "/" +:+ b)).
    rewrite lastPart_cons. destruct (Ascii.eqb c "/"); [exact IH|].
    rewrite slashless_append.
    change ("/" +:+ b) with (String "/" b). simpl.
    now rewrite andb_false_r.
Qed.

Lemma slashless_pretty_N_go (x : N) (s : string) :
  slashless s = true -> slashless (pretty_N_go x s) = true.
Proof.
  revert s. induction (N.lt_wf_0 x) as [x _ IH]. intros s Hs.
  destruct (N.eq_dec x 0%N) as [->|Hx].
  - now rewrite pretty_N_go_0.
  - rewrite pretty_N_go_step by lia. apply IH; [apply N.div_lt; lia|].
    simpl. rewrite Hs. unfold pretty_N_char. now repeat case_match.
Qed.

Lemma slashless_pretty (now : Z) : slashless (pretty now) = true.
Proof.
  assert (HN : forall x : N, slashless (pretty x) = true).
  { intros x. unfold pretty, pretty_N. case_decide; [reflexivity|].
    now apply slashless_pretty_N_go. }
  destruct now as [|p|p]; [reflexivity | apply HN |].
  change (pretty (Z.neg p)) with ("-" +:+ pretty (N.pos p)).
  rewrite slashless_append. now rewrite HN.
Qed.

Lemma lastPart_publicUrl (env : Env) (name : string) :
  lastPart (publicUrl env name) = lastPart name.
Proof.
  unfold publicUrl.
  assert (Hlocal :
    lastPart ("http://localhost:9000/" +:+ BUCKET_NAME env +:+ "/" +:+ name)
    = lastPart name).
  { rewrite <- Map.append_assoc. apply lastPart_after_slash. }
  destruct (PUBLIC_ASSET_URL env) as [base|]; [|exact Hlocal].
  destruct (truthy_str base); [|exact Hlocal].
  replace (base +:+ "/" +:+ BUCKET_NAME env +:+ "/" +:+ name)
    with ((base +:+ "/" +:+ BUCKET_NAME env) +:+ "/" +:+ name)
    by now rewrite !Map.append_assoc.
  apply lastPart_after_slash.
Qed.

(** X23: the object that [deletePhoto] deletes for the URL that
    [uploadPhoto] returned is in the bucket of the upload, and its key is
    what follows the last slash of the uploaded key; it is the uploaded key
    exactly when the name of the file has no slash. *)
Theorem deletePhoto_after_uploadPhoto (env : Env) (now : Z) (file : File) (url : string) :
  snd (uploadPhoto env now file true) = Some url ->
  deletePhoto env url
  = [DeleteObject (BUCKET_NAME env) (lastPart (fileName now file))]
  /\ (deletePhoto env url = [DeleteObject (BUCKET_NAME env) (fileName now file)]
      <-> slashless (file_name file) = true)
  /\ fst (uploadPhoto env now file true)
     = [PutObject (BUCKET_NAME env) (fileName now file) (file_type file)
                  "public-read"]
  /\ snd (uploadPhoto env now file false) = None.
Proof.
  simpl. intros [= <-]. unfold deletePhoto. rewrite lastPart_publicUrl.
  split; [reflexivity|]. split; [|now split].
  assert (Hname : slashless (fileName now file) = slashless (file_name file)).
  { unfold fileName. rewrite !slashless_append, slashless_pretty. reflexivity. }
  split.
  - intros [= Heq]. rewrite <- Hname, <- Heq. apply slashless_lastPart.
  - intros Hs. now rewrite lastPart_slashless by now rewrite Hname.
Qed.

End Storage.

(** ** ParkForm.svelte *)

Module ParkForm.
Section Form.
Variable number : Type.
(** A JSON value; [JSON.parse(text)], [None] when it throws;
    [JSON.stringify(value, null, 2)]; JavaScript truthiness of a value and
    of a number. *)
Variable Json : Type.
Variable JSON_parse : string -> option Json.
Variable JSON_stringify : Json -> string.
Variable truthy_json : Json -> bool.
Variable truthy_number : number -> bool.
(** [turf.area(turf.polygon(geometry.coordinates))], [None] when reading
    the coordinates or either call throws. *)
Variable polygonArea : Json -> option number.
(** [parseInt(s)], with [NaN] as [None]. *)
Variable parseInt : string -> option Z.

Local Abbreviation Park := (Park number).

Record Props := mkProps {
  prop_geometry : Json;
  prop_park : option Park
}.

(** The [$state] of the form. *)
Record Form := mkForm {
  name : string;
  description : string;
  form_balanceHolder : string;
  form_districtId : string;
  loading : bool;
  error : string;
  editableGeometry : string
}.

(** [x || ''] for an optional string. *)
Definition or_empty (x : option string) : string :=
  match x with
  | Some s => s
  | None => EmptyString
  end.

(** The state the form starts in. *)
Definition initialForm (props : Props) : Form :=
  mkForm
    (match prop_park props with Some park => p_name park | None => EmptyString end)
    (match prop_park props with
     | Some park => or_empty (p_description park)
     | None => EmptyString
     end)
    (match prop_park props with
     | Some park => or_empty (balanceHolder park)
     | None => EmptyString
     end)
    (match prop_park props with
     | Some park =>
         match districtId park with
         | Some d => pretty d
         | None => EmptyString
         end
     | None => EmptyString
     end)
    false EmptyString (JSON_stringify (prop_geometry props)).

Definition isEditMode (props : Props) : bool :=
  match prop_park props with
  | Some _ => true
  | None => false
  end.

(** [parsedGeometry]: its [data] and its [error]. *)
Definition finalGeometry (props : Props) (form : Form) : Json :=
  match JSON_parse (editableGeometry form) with
  | Some parsed => parsed
  | None => prop_geometry props
  end.

Definition geometryError (form : Form) : string :=
  match JSON_parse (editableGeometry form) with
  | Some _ => EmptyString
  | None => "Неверный формат JSON"
  end.

(** Auto-calculate area from geometry (in square meters). *)
Definition area (props : Props) (form : Form) : option number :=
  if negb (truthy_json (finalGeometry props form)) then None
  else polygonArea (finalGeometry props form).

Record Body := mkBody {
  body_name : string;
  body_description : option string;
  body_geometry : Json;
  body_area : option number;
  body_balanceHolder : option string;
  body_districtId : option Z
}.

Record Request := mkRequest {
  method : string;
  url : string;
  body : Body
}.

Inductive SaveResult :=
| Saved (updatedPark : Park)
| Refused (error : option string)
| NetworkError.

Record Outcome := mkOutcome {
  form_after : Form;
  requests : list Request;
  submitted : option Park
}.

Definition set_error (e : string) (form : Form) : Form :=
  mkForm (name form) (description form) (form_balanceHolder form)
         (form_districtId form) (loading form) e (editableGeometry form).

Definition set_loading (b : bool) (form : Form) : Form :=
  mkForm (name form) (description form) (form_balanceHolder form)
         (form_districtId form) b (error form) (editableGeometry form).

Definition or_null (s : string) : option string :=
  if truthy_str s then Some s else None.

Definition saveRequest (props : Props) (form : Form) : Request :=
  mkRequest
    (if isEditMode props then "PUT" else "POST")
    (match prop_park props with
     | Some park => "/api/parks/" +:+ pretty (p_id park)
     | None => "/api/parks"
     end)
    (mkBody (name form) (or_null (description form)) (finalGeometry props form)
            (match area props form with
             | Some a => if truthy_number a then Some a else None
             | None => None
             end)
            (or_null (form_balanceHolder form))
            (parseInt (form_districtId form))).

Definition handleSubmit (props : Props) (form : Form) (answer : SaveResult)
  : Outcome :=
  let form := set_error EmptyString form in
  if negb (truthy_str (name form)) then
    mkOutcome (set_error "Требуется название" form) [] None
  else if negb (truthy_str (form_districtId form)) then
    mkOutcome (set_error "Требуется выбор района" form) [] None
  else if truthy_str (geometryError form) then
    mkOutcome (set_error "Исправьте ошибки в геометрии перед сохранением" form)
              [] None
  else
    let form := set_loading true form in
    match answer with
    | Saved updatedPark =>
        mkOutcome (set_loading false form) [saveRequest props form]
                  (Some updatedPark)
    | Refused data_error =>
        let fallback :=
          "Не удалось " +:+ (if isEditMode props then "обновить" else "создать")
          +:+ " парк" in
        let message :=
          match data_error with
          | Some e => if truthy_str e then e else fallback
          | None => fallback
          end in
        mkOutcome (set_loading false (set_error message form))
                  [saveRequest props form] None
    | NetworkError =>
        mkOutcome (set_loading false (set_error "Произошла ошибка" form))
                  [saveRequest props form] None
    end.

(** ** Facts about the park form *)

Lemma geometryError_empty (form : Form) :
  truthy_str (geometryError form) = false
  <-> JSON_parse (editableGeometry form) <> None.
Proof.
  unfold geometryError. destruct (JSON_parse (editableGeometry form)); simpl;
    split; congruence.
Qed.

(** X24: the park form sends its request exactly when the name and the
    district are given and the geometry text parses; the request then
    carries the parsed geometry, not the drawn one; a missing name, a
    missing district and a text that does not parse are reported in that
    order, without any request.  A park that has no district opens in the
    edit form with no district chosen, and an untouched text that parses
    back to the drawn geometry is submitted as the drawn geometry. *)
Theorem park_form_submission (props : Props) (form : Form) (answer : SaveResult) :
  (requests (handleSubmit props form answer) <> []
   <-> name form <> EmptyString /\ form_districtId form <> EmptyString
       /\ JSON_parse (editableGeometry form) <> None)
  /\ (forall parsed,
        name form <> EmptyString -> form_districtId form <> EmptyString ->
        JSON_parse (editableGeometry form) = Some parsed ->
        exists request,
          requests (handleSubmit props form answer) = [request]
          /\ body_geometry (body request) = parsed
          /\ body_districtId (body request) = parseInt (form_districtId form)
          /\ method request = (if isEditMode props then "PUT" else "POST"))
  /\ (name form = EmptyString ->
      error (form_after (handleSubmit props form answer)) = "Требуется название")
  /\ (name form <> EmptyString -> form_districtId form = EmptyString ->
      error (form_after (handleSubmit props form answer))
      = "Требуется выбор района")
  /\ (name form <> EmptyString -> form_districtId form <> EmptyString ->
      JSON_parse (editableGeometry form) = None ->
      error (form_after (handleSubmit props form answer))
      = "Исправьте ошибки в геометрии перед сохранением")
  /\ (forall park, prop_park props = Some park -> districtId park = None ->
        form_districtId (initialForm props) = EmptyString)
  /\ (JSON_parse (JSON_stringify (prop_geometry props)) = Some (prop_geometry props) ->
      finalGeometry props (initialForm props) = prop_geometry props).
Proof.
  destruct form as [nm de bh di ld er text].
  unfold handleSubmit, geometryError, initialForm, finalGeometry. simpl.
  split; [|split; [|split; [|split; [|split; [|split]]]]].
  - destruct nm as [|c nm]; simpl.
    { split; [intros H; now contradiction H | intros (H & _); now contradiction H]. }
    destruct di as [|c' di]; simpl.
    { split; [intros H; now contradiction H | intros (_ & H & _); now contradiction H]. }
    destruct (JSON_parse text) as [parsed|]; simpl.
    + split; [intros _; repeat split; discriminate | intros _; now destruct answer].
    + split; [intros H; now contradiction H | intros (_ & _ & H); now contradiction H].
  - intros parsed Hn Hd Hp. rewrite Hp.
    destruct nm as [|c nm]; [now contradiction Hn|].
    destruct di as [|c' di]; [now contradiction Hd|]. simpl.
    exists (saveRequest props
              (set_loading true (set_error EmptyString
                                   (mkForm (String c nm) de bh (String c' di) ld er text)))).
    unfold saveRequest, finalGeometry. simpl. rewrite Hp.
    now destruct answer.
  - now intros ->.
  - intros Hn ->. now destruct nm.
  - intros Hn Hd ->. destruct nm; [now contradiction Hn|].
    now destruct di; [contradiction Hd|].
  - intros park -> ->. reflexivity.
  - now intros ->.
Qed.

End Form.
End ParkForm.

(** ** Concrete runs *)

Module Scenario.

(** The parameters of the development at simple values: integers for the
    coordinates, the six facility types of the schema, dates shown as
    they are written. *)
Definition KEYS : list string := Map.facilityCountKeys.
Definition TYPES (type : string) : option string :=
  if bool_decide (In type KEYS) then Some type else None.
Definition ICONS (type : string) : option string := None.
Definition showDate (s : string) : string := s.
Definition truthy (n : Z) : bool := negb (n =? 0)%Z.

Definition square : Geometry Z :=
  mkGeometry "Polygon" [[[0; 0]; [0; 10]; [10; 10]; [10; 0]; [0; 0]]]%Z.

Definition north : District Z := mkDistrict 10 "north" (Some square).

(** A park of district 10 and a park of no district. *)
Definition park1 : Park Z := mkPark 1 "p1" (Some 10%Z) (Some square) None None None.
Definition park2 : Park Z := mkPark 2 "p2" None (Some square) None None None.

Definition store12 : Store Z := mkStore [north] [park1; park2] [].

(** Everything selected, as the component starts. *)
Definition allSelected : Map.Filters :=
  Map.filtersEffect Z KEYS store12 Map.initialFilters.

(** Closed membership facts are decided by evaluation. *)
Ltac by_evaluation := apply (bool_decide_unpack _); vm_compute; exact I.

(** C1 fails as stated.  In the state the component starts in, with
    everything selected, park 2 has no districtId, so its districtId is
    not a currently selected district; deselect-all-parks deselects it all
    the same, like park 1 of the selected district 10. *)
Lemma deselectAllParks_deselects_districtless :
  let after := Map.deselectAllParks Z store12 allSelected in
  In park2 (parks store12)
  /\ districtId park2 = None
  /\ (2%Z ∈ Map.selectedParks allSelected)
  /\ (2%Z ∉ Map.selectedParks after)
  /\ (1%Z ∉ Map.selectedParks after).
Proof.
  split; [right; now left|]. split; [reflexivity|]. repeat split; by_evaluation.
Qed.

(** The store of a page whose request for the districts failed, so that
    the list of districts stayed empty, and whose parks were loaded. *)
Definition store12d : Store Z := mkStore [] [park1; park2] [].

(** The filters the component starts with on that store: no district is
    selected, both parks are, and district 10 of park 1 is not selected. *)
Definition districtsOff : Map.Filters :=
  Map.filtersEffect Z KEYS store12d Map.initialFilters.

Lemma deselectAllParks_scoped_witness :
  1%Z ∈ Map.selectedParks (Map.deselectAllParks Z store12d districtsOff)
  /\ 2%Z ∉ Map.selectedParks (Map.deselectAllParks Z store12d districtsOff).
Proof.
  destruct (Map.deselectAllParks_scoped Z store12d districtsOff)
    as (_ & _ & Honly & Hkeeps).
  split.
  - apply (Hkeeps park1).
    + left. reflexivity.
    + exists 10%Z. repeat split; [discriminate | by_evaluation].
    + by_evaluation.
  - intros Hin. destruct (Honly 2%Z Hin) as (p & Hp & Hid & d & Hd & _).
    destruct Hp as [<-|[<-|[]]]; discriminate.
Defined.

Lemma selectAllParks_scoped_witness :
  2%Z ∈ Map.selectedParks
          (Map.selectAllParks Z store12 (Map.toggleDistrict 10 allSelected))
  /\ 1%Z ∉ Map.selectedParks
             (Map.selectAllParks Z store12 (Map.toggleDistrict 10 allSelected)).
Proof.
  destruct (Map.selectAllParks_scoped Z store12 (Map.toggleDistrict 10 allSelected))
    as (Hiff & Hout & _).
  split.
  - apply Hiff. exists park2. repeat split; [right; left; reflexivity | now left].
  - apply (Hout park1).
    + left. reflexivity.
    + exists 10%Z. repeat split; [discriminate | by_evaluation].
    + intros q [<-|[<-|[]]]; [reflexivity | discriminate].
Defined.

(** C2 fails as stated.  A park that the server sends without a geometry
    is selected when the filters are initialised and has no districtId,
    and the park pass draws no layer for it. *)
Definition bare : Park Z := mkPark 3 "p3" None None None None None.

Lemma loadParks_skips_park_without_geometry :
  let st := mkStore [] [bare] [] in
  let f := Map.filtersEffect Z KEYS st Map.initialFilters in
  In bare (parks st)
  /\ p_id bare ∈ Map.selectedParks f
  /\ districtId bare = None
  /\ Map.loadParks Z TYPES truthy st f false false = [].
Proof.
  split; [now left|]. split; [by_evaluation|]. split; reflexivity.
Qed.

(** A kiosk in park 1. *)
Definition kiosk : Facility Z :=
  mkFacility 7 "kiosk" "NTO" 5%Z 5%Z (Some 1%Z) None None None None
             (Some "[2024-01-01,2025-01-01)").

Definition store12k : Store Z := mkStore [north] [park1; park2] [kiosk].

Lemma loadFacilities_marker_iff_witness :
  exists marker,
    In marker (Map.loadFacilities Z TYPES ICONS showDate store12k
                 (Map.filtersEffect Z KEYS store12k Map.initialFilters) false false)
    /\ Map.m_facility Z marker = kiosk.
Proof.
  destruct (Map.loadFacilities_marker_iff Z TYPES ICONS showDate store12k
              (Map.filtersEffect Z KEYS store12k Map.initialFilters) false false kiosk)
    as (_ & Hpark & _).
  apply (Hpark [] park1 [park2]);
    [reflexivity | reflexivity | intros q [] | discriminate |].
  split; [now left|]. split; [by_evaluation|]. split; [by_evaluation|].
  right. right. exists 10%Z. split; [reflexivity | by_evaluation].
Defined.

(** C9 fails as stated.  The page starts with park 5 alone, which the
    filters select; the park is deleted, and its id stays in the
    selected-parks set; a facility of park 5 then reaches the page
    ([handleFacilitySubmit] in create mode).  No park of the store has id
    5, and the facility pass gives the facility its marker. *)
Definition park5 : Park Z := mkPark 5 "p5" None (Some square) None None None.

Definition orphan : Facility Z :=
  mkFacility 8 "toilet" "TOILET" 5%Z 5%Z (Some 5%Z) None None None None None.

Definition page0 : Page.State Z :=
  Page.mkState Z (mkStore [] [park5] []) false false false None 0%Z 0%Z
               None None None None.

Definition page1 : Page.State Z := fst (Page.handleParkDelete Z true Page.Deleted 5 page0).
Definition page2 : Page.State Z := Page.handleFacilitySubmit Z orphan page1.

(** The filters, with the effect run after each change of the store. *)
Definition filters2 : Map.Filters :=
  Map.filtersEffect Z KEYS (Page.store Z page2)
    (Map.filtersEffect Z KEYS (Page.store Z page1)
       (Map.filtersEffect Z KEYS (Page.store Z page0) Map.initialFilters)).

Lemma stale_selection_shows_dangling_facility :
  parkId orphan = Some 5%Z
  /\ parks (Page.store Z page2) = []
  /\ (5%Z ∈ Map.selectedParks filters2)
  /\ map (Map.m_facility Z)
         (Map.loadFacilities Z TYPES ICONS showDate (Page.store Z page2) filters2
            false false)
     = [orphan].
Proof.
  split; [reflexivity|]. split; [reflexivity|]. split; [by_evaluation|].
  vm_compute. reflexivity.
Qed.

Lemma dangling_facility_hidden_witness :
  (5%Z ∉ Map.selectedParks
           (Map.filtersEffect Z KEYS (mkStore [] [park1] [orphan]) Map.initialFilters))
  /\ ~ exists marker,
        In marker (Map.loadFacilities Z TYPES ICONS showDate
                     (mkStore [] [park1] [orphan])
                     (Map.filtersEffect Z KEYS (mkStore [] [park1] [orphan])
                        Map.initialFilters) false false)
        /\ Map.m_facility Z marker = orphan.
Proof.
  apply (Map.dangling_facility_hidden Z KEYS TYPES ICONS showDate
           (mkStore [] [park1] [orphan]) _ false false orphan 5%Z).
  - apply Map.reached_init. reflexivity.
  - reflexivity.
  - discriminate.
  - intros p [<-|[]]. discriminate.
Defined.

(** C6 fails as stated.  A contractTerm with a character in front of the
    interval is not of the format, and the popup shows its dates. *)
Definition annotated : Facility Z :=
  mkFacility 9 "kiosk" "NTO" 5%Z 5%Z (Some 1%Z) None None None None
             (Some "x[2024-01-01,2025-01-01)").

Lemma contract_term_unanchored :
  ~ Map.interval_format "x[2024-01-01,2025-01-01)"
  /\ In (Map.Field Z Map.ContractTermLabel "от 2024-01-01 до 2025-01-01")
        (Map.facilityPopup Z TYPES showDate store12k false annotated).
Proof.
  split.
  - intros (a & b & _ & _ & H). unfold Map.interval in H.
    rewrite Map.append_cons in H. discriminate.
  - vm_compute. do 4 right. now left.
Qed.

Lemma date_2024 : Map.date_format "2024-01-01".
Proof. exists "2024", "01", "01". now repeat split. Qed.

Lemma date_2025 : Map.date_format "2025-01-01".
Proof. exists "2025", "01", "01". now repeat split. Qed.

Lemma contract_term_line_iff_witness :
  In (Map.Field Z Map.ContractTermLabel "от 2024-01-01 до 2025-01-01")
     (Map.facilityPopup Z TYPES showDate store12k false kiosk).
Proof.
  destruct (Map.contract_term_line_iff Z TYPES showDate store12k false kiosk)
    as (_ & _ & Hexact).
  apply (Hexact "2024-01-01" "2025-01-01").
  - reflexivity.
  - exact date_2024.
  - exact date_2025.
Defined.

(** Drawing a district is under way when the button of the park is
    pressed; a polygon is then completed, the map is clicked, and the
    drawing is cancelled. *)
Lemma start_cancels_active_mode_witness :
  ~ In (Map.DistrictCreate Z square)
       (snd (Map.run Z
               (Map.startDrawingPark Z (Map.startDrawingDistrict Z (Map.idle Z)))
               [Map.Created Z "polygon" square; Map.MapClick Z 1%Z 1%Z;
                Map.Cancel Z])).
Proof.
  destruct (Map.start_cancels_active_mode Z) as (_ & _ & Hpark & _).
  apply Hpark. reflexivity.
Defined.

(** A point-in-polygon test for the run of the form below: inside the
    bounding box of the outer ring (exact for the axis-parallel squares
    used here); a polygon without a ring makes [turf.polygon] throw. *)
Definition inBox (point : Z * Z) (coordinates : list (list (list Z))) : option bool :=
  match coordinates with
  | ring :: _ =>
      let xs := map (fun vertex => nth 0 vertex 0%Z) ring in
      let ys := map (fun vertex => nth 1 vertex 0%Z) ring in
      Some (existsb (fun x => x <=? fst point)%Z xs
            && existsb (fun x => fst point <=? x)%Z xs
            && existsb (fun y => y <=? snd point)%Z ys
            && existsb (fun y => snd point <=? y)%Z ys)
  | [] => None
  end.

Definition farSquare : Geometry Z :=
  mkGeometry "Polygon" [[[20; 20]; [20; 30]; [30; 30]; [30; 20]; [20; 20]]]%Z.

Definition farPark : Park Z := mkPark 4 "p4" None (Some farSquare) None None None.

(** A new facility placed at (5, 5): inside park 1, outside park 4. *)
Definition placement : FacilityForm.Props Z :=
  FacilityForm.mkProps Z 5%Z 5%Z [farPark; park1] None.

Definition noParse (s : string) : option Z := None.

Lemma facility_park_autodetect_witness :
  FacilityForm.parkIdEffect Z inBox placement EmptyString = "1".
Proof.
  destruct (FacilityForm.facility_park_autodetect Z unit inBox noParse placement
              eq_refl) as (Hauto & _).
  apply (Hauto park1).
  - right. now left.
  - reflexivity.
  - intros q [<-|[<-|[]]] Hq; [discriminate | reflexivity].
Defined.

Definition page12k : Page.State Z :=
  Page.mkState Z store12k false false false None 0%Z 0%Z None None None None.

Lemma delete_cascade_witness :
  In park2 (parks (Page.store Z (fst (Page.handleParkDelete Z true Page.Deleted 1 page12k))))
  /\ ~ In kiosk (facilities
                   (Page.store Z (fst (Page.handleParkDelete Z true Page.Deleted 1 page12k))))
  /\ In park1 (parks (Page.store Z
                        (fst (Page.handleDistrictDelete Z true Page.Deleted 10 page12k)))).
Proof.
  destruct (Page.delete_cascade Z page12k 1%Z) as ((Hparks & Hfacilities & _) & _).
  destruct (Page.delete_cascade Z page12k 10%Z) as (_ & (_ & Hkept & _) & _).
  split; [|split].
  - apply Hparks. split; [right; now left | discriminate].
  - intros Hin. apply Hfacilities in Hin as [_ Hne]. now apply Hne.
  - rewrite Hkept. now left.
Defined.

Lemma isAuthenticated_iff_witness :
  Auth.isAuthenticated
    (Auth.withSessionCookie "anything"
       (Auth.createSession "5c0de7a1-token" (Auth.mkCookies ∅ ∅))) = true.
Proof.
  destruct Auth.isAuthenticated_iff as (_ & Hany).
  apply (Hany (Auth.mkCookies ∅ ∅) "5c0de7a1-token" "anything"). discriminate.
Defined.

(** ** Runs of the further properties *)

(** The filters of the component that starts with the store of the
    kiosk. *)
Definition mounted : Map.Filters :=
  Map.filtersEffect Z KEYS store12k Map.initialFilters.

(** The checkbox of park 1 is clicked: park 1 is still drawn. *)
Lemma park_checkbox_undone_witness :
  exists layer,
    In layer (Map.loadParks Z TYPES truthy store12k
                (Map.filtersEffect Z KEYS store12k (Map.togglePark 1 mounted))
                false false)
    /\ Map.pl_park Z layer = park1.
Proof.
  destruct (Map.park_checkbox_undone Z KEYS TYPES truthy store12k mounted
              false false 1%Z ltac:(now left)) as (_ & Hdrawn).
  apply (Hdrawn park1); [now left | reflexivity | discriminate |].
  right. exists north. split; [now left | reflexivity].
Defined.

(** The checkbox of district 10 is clicked: district 10 is still drawn. *)
Lemma district_checkbox_undone_witness :
  exists layer,
    In layer (Map.loadDistricts Z store12k
                (Map.filtersEffect Z KEYS store12k (Map.toggleDistrict 10 mounted))
                false false)
    /\ Map.dl_district Z layer = north.
Proof.
  destruct (Map.district_checkbox_undone Z KEYS TYPES truthy store12k mounted
              false false 10%Z ltac:(now left)) as (_ & Hdrawn & _).
  apply (Hdrawn north); [now left | discriminate].
Defined.

(** District 10 is switched off; a further run of the filters effect
    selects it again. *)
Lemma filtersEffect_selects_store_witness :
  (10%Z ∈ Map.selectedDistricts
            (Map.filtersEffect Z KEYS store12
               (Map.toggleDistrict 10 allSelected))).
Proof.
  destruct (Map.filtersEffect_selects_store Z KEYS store12
              (Map.toggleDistrict 10 allSelected)) as (Hdistricts & _).
  apply (Hdistricts north). now left.
Defined.

(** Deselect-all-districts is clicked: district 10 is still drawn. *)
Lemma district_layers_witness :
  exists layer,
    In layer (Map.loadDistricts Z store12
                (Map.filtersEffect Z KEYS store12
                   (Map.deselectAllDistricts allSelected)) false false)
    /\ Map.dl_district Z layer = north.
Proof.
  destruct (Map.district_layers Z KEYS store12 allSelected false false)
    as (_ & _ & Hall & _).
  apply (Hall north); [now left | discriminate].
Defined.

(** While a facility is being placed the layer of park 1 has no popup. *)
Lemma popups_suppressed_while_placing_witness :
  Map.pl_popup Z (Map.mkParkLayer Z park1 None) = None
  /\ In (Map.mkParkLayer Z park1 None)
        (Map.loadParks Z TYPES truthy store12 allSelected false true).
Proof.
  assert (Hin : In (Map.mkParkLayer Z park1 None)
                   (Map.loadParks Z TYPES truthy store12 allSelected false true))
    by (now left).
  destruct (Map.popups_suppressed_while_placing Z TYPES ICONS showDate truthy
              store12 allSelected false true) as (_ & Hparks & _).
  split; [exact (Hparks _ Hin) | exact Hin].
Defined.

(** The popup of park 1 counts its kiosk under NTO and nothing else. *)
Lemma park_popup_counts_witness :
  let items := [(Some "SPORTS_PLAYGROUND", 0); (Some "CHILD_PLAYGROUND", 0);
                (Some "NTO", 1); (Some "TOILET", 0); (Some "CHILL", 0);
                (Some "CHILDREN_ROOM", 0)] in
  In (Map.CountItems Z items) (Map.parkPopup Z TYPES truthy store12k false park1)
  /\ list_sum (map snd items) = 1.
Proof.
  intros items.
  assert (Htypes : forall f, In f (Map.facilitiesOf Z store12k park1) ->
                             f_type f ∈ Map.facilityCountKeys).
  { intros f [<-|[]]. by_evaluation. }
  destruct (Map.park_popup_counts Z TYPES truthy store12k false park1 items Htypes)
    as (Hiff & Hsum).
  assert (Hin : In (Map.CountItems Z items)
                   (Map.parkPopup Z TYPES truthy store12k false park1))
    by (apply Hiff; reflexivity).
  split; [exact Hin | exact (Hsum Hin)].
Defined.

(** Deselect-all-parks is clicked: park 1 is still drawn. *)
Lemma select_all_parks_draws_listed_witness :
  exists layer,
    In layer (Map.loadParks Z TYPES truthy store12
                (Map.filtersEffect Z KEYS store12
                   (Map.deselectAllParks Z store12 allSelected)) false false)
    /\ Map.pl_park Z layer = park1.
Proof.
  destruct (Map.select_all_parks_draws_listed Z KEYS TYPES truthy store12
              allSelected false false) as (_ & _ & Hlisted).
  apply Hlisted. split; [now left | discriminate].
Defined.

(** Park drawing is cancelled; a polygon that is completed afterwards and
    a click on the map create nothing. *)
Lemma cancel_silences_witness :
  snd (Map.run Z (Map.cancelAllModes Z (Map.startDrawingPark Z (Map.idle Z)))
         [Map.Created Z "polygon" square; Map.MapClick Z 1%Z 1%Z]) = [].
Proof.
  destruct (Map.cancel_silences Z (Map.startDrawingPark Z (Map.idle Z))
              [Map.Created Z "polygon" square; Map.MapClick Z 1%Z 1%Z] eq_refl)
    as (Hquiet & _).
  exact Hquiet.
Defined.

(** The kiosk of park 1 is edited: the form starts on park 1 although the
    only park offered lies elsewhere. *)
Lemma edit_mode_parkId_witness :
  FacilityForm.parkIdEffect Z inBox
    (FacilityForm.mkProps Z 5%Z 5%Z [farPark] (Some kiosk)) EmptyString = "1".
Proof.
  destruct (FacilityForm.edit_mode_parkId Z inBox
              (FacilityForm.mkProps Z 5%Z 5%Z [farPark] (Some kiosk)) EmptyString)
    as (Hedit & _).
  apply (Hedit kiosk 1%Z); [reflexivity | reflexivity | discriminate].
Defined.

(** A facility form with a park but no name is refused. *)
Lemma handleSubmit_outcome_witness :
  FacilityForm.error unit
    (FacilityForm.form_after Z unit
       (FacilityForm.handleSubmit Z unit noParse placement
          (FacilityForm.mkForm unit EmptyString "NTO" EmptyString EmptyString
             EmptyString EmptyString None EmptyString false EmptyString "1")
          FacilityForm.UploadFailed (FacilityForm.NetworkError Z)))
  = "Name is required".
Proof.
  destruct (FacilityForm.handleSubmit_outcome Z unit noParse placement
              (FacilityForm.mkForm unit EmptyString "NTO" EmptyString EmptyString
                 EmptyString EmptyString None EmptyString false EmptyString "1")
              FacilityForm.UploadFailed (FacilityForm.NetworkError Z))
    as (_ & Hname & _).
  apply Hname. reflexivity.
Defined.

(** A third park is created on the page of parks 1 and 2. *)
Lemma submit_appends_or_replaces_witness :
  parks (Page.store Z (Page.handleParkSubmit Z bare page12k)) = [park1; park2; bare].
Proof.
  destruct (Page.submit_appends_or_replaces Z page12k) as (Hparks & _).
  destruct (Hparks bare) as (Hnew & _).
  apply Hnew. reflexivity.
Defined.

(** Editing park 1 opens the form on a park of the store with id 1. *)
Lemma edit_and_create_flows_witness :
  exists edited,
    Page.editingPark Z (Page.handleParkEdit Z 1 page12k) = Some edited
    /\ p_id edited = 1%Z.
Proof.
  destruct (Page.edit_and_create_flows Z page12k 1%Z) as (_ & _ & _ & Hedit & _).
  destruct (Hedit park1 ltac:(now left) eq_refl) as (edited & Hediting & _ & Hid & _).
  exists edited. split; [exact Hediting | exact Hid].
Defined.

(** Park 3 is created and deleted again: parks 1 and 2 are left. *)
Lemma create_then_delete_restores_witness :
  parks (Page.store Z
           (fst (Page.handleParkDelete Z true Page.Deleted 3
                   (Page.handleParkSubmit Z bare page12k))))
  = [park1; park2].
Proof.
  destruct (Page.create_then_delete_restores Z page12k) as (Hpark & _).
  destruct (Hpark bare eq_refl) as (Hparks & _).
  - intros p [<-|[<-|[]]]; discriminate.
  - exact Hparks.
Defined.

(** The server refuses to delete park 1 and says why: the page shows
    that text. *)
Lemma facility_delete_and_alerts_witness :
  snd (Page.handleParkDelete Z true (Page.NotDeleted (Some "in use")) 1 page12k)
  = ["in use"].
Proof.
  destruct (Page.facility_delete_and_alerts Z page12k 1%Z)
    as (_ & _ & _ & _ & _ & _ & Htext).
  destruct (Htext "in use" ltac:(discriminate)) as (_ & Hpark & _).
  exact Hpark.
Defined.

(** A session that has just been created authenticates. *)
Lemma session_lifecycle_witness :
  Auth.isAuthenticated
    (Auth.createSession "5c0de7a1-token" (Auth.mkCookies ∅ ∅)) = true.
Proof.
  destruct (Auth.session_lifecycle (Auth.mkCookies ∅ ∅) "5c0de7a1-token")
    as (Hcreated & _).
  apply Hcreated. discriminate.
Defined.

(** A delete request without any cookie. *)
Lemma mutations_require_session_witness :
  DistrictsApi.DELETE unit unit unit (Auth.mkCookies ∅ ∅) (Some 3%Z)
                      (DistrictsApi.Rows unit [])
  = ([], DistrictsApi.mkResponse unit 401
           (DistrictsApi.ErrorMessage unit "Unauthorized")).
Proof.
  destruct (DistrictsApi.mutations_require_session unit unit unit
              (Auth.mkCookies ∅ ∅) (Some 3%Z) None tt tt (DistrictsApi.Rows unit [])
              (or_introl (lookup_empty _)))
    as (_ & _ & Hdelete).
  exact Hdelete.
Defined.

(** A delete request with a session whose query throws. *)
Lemma handler_outcomes_witness :
  DistrictsApi.status unit
    (snd (DistrictsApi.DELETE unit unit unit
            (Auth.createSession "5c0de7a1-token" (Auth.mkCookies ∅ ∅)) (Some 3%Z)
            (DistrictsApi.QueryThrew unit)))
  = 500.
Proof.
  assert (Hsession : Auth.isAuthenticated
                       (Auth.createSession "5c0de7a1-token" (Auth.mkCookies ∅ ∅))
                     = true) by (vm_compute; reflexivity).
  destruct (DistrictsApi.handler_outcomes unit unit unit
              (Auth.createSession "5c0de7a1-token" (Auth.mkCookies ∅ ∅)) (Some 3%Z)
              tt tt Hsession) as (_ & _ & _ & Hthrew & _).
  destruct (Hthrew (DistrictsApi.mkData unit None None None)) as (_ & _ & Hdelete & _).
  exact Hdelete.
Defined.

(** A photo is uploaded with the default environment and deleted by the
    URL that the upload returned. *)
Lemma deletePhoto_after_uploadPhoto_witness :
  Storage.deletePhoto (Storage.mkEnv None None)
    "http://localhost:9000/parks-photos/1700000000000-a.png"
  = [Storage.DeleteObject "parks-photos" "1700000000000-a.png"].
Proof.
  assert (Hurl : snd (Storage.uploadPhoto (Storage.mkEnv None None) 1700000000000
                        (Storage.mkFile "a.png" "image/png") true)
                 = Some "http://localhost:9000/parks-photos/1700000000000-a.png")
    by (vm_compute; reflexivity).
  destruct (Storage.deletePhoto_after_uploadPhoto _ _ _ _ Hurl) as (_ & Hsame & _).
  apply Hsame. reflexivity.
Defined.

(** A JSON reader for the run of the park form below: the empty text
    does not parse, any other text parses to itself. *)
Definition parseText (s : string) : option string :=
  if truthy_str s then Some s else None.

(** A new park with a name, a district and a geometry text that parses. *)
Lemma park_form_submission_witness :
  exists request,
    ParkForm.requests Z string
      (ParkForm.handleSubmit Z string parseText truthy_str truthy
         (fun _ => None) noParse
         (ParkForm.mkProps Z string "{}" None)
         (ParkForm.mkForm "Park" EmptyString EmptyString "10" false EmptyString "{}")
         (ParkForm.NetworkError Z))
    = [request]
    /\ ParkForm.body_geometry Z string (ParkForm.body Z string request) = "{}".
Proof.
  destruct (ParkForm.park_form_submission Z string parseText (fun s => s)
              truthy_str truthy (fun _ => None) noParse
              (ParkForm.mkProps Z string "{}" None)
              (ParkForm.mkForm "Park" EmptyString EmptyString "10" false
                 EmptyString "{}")
              (ParkForm.NetworkError Z)) as (_ & Hsent & _).
  destruct (Hsent "{}" ltac:(discriminate) ltac:(discriminate) eq_refl)
    as (request & Hrequests & Hgeometry & _).
  exists request. split; [exact Hrequests | exact Hgeometry].
Defined.

(** Deselect-all-facility-types is clicked: the kiosk keeps its marker. *)
Lemma facility_type_filter_witness :
  exists marker,
    In marker (Map.loadFacilities Z TYPES ICONS showDate store12k
                 (Map.filtersEffect Z KEYS store12k
                    (Map.deselectAllFacilityTypes mounted)) false false)
    /\ Map.m_facility Z marker = kiosk.
Proof.
  destruct (Map.facility_type_filter Z KEYS TYPES ICONS showDate store12k mounted
              false false) as (_ & _ & Hmarker).
  apply (Hmarker kiosk).
  - now left.
  - do 2 right. now left.
  - intros k [= <-] _. now left.
  - intros p [<-|[<-|[]]] Hid; [|discriminate].
    right. exists north. split; [now left | reflexivity].
Defined.

End Scenario.
